(** * Webhook verification and dispatch of the SingleKey SDK

    A shallow embedding of the webhook utilities of the SDK (class
    [WebhookHandler] with [verifySignature], [parseWebhook] and [on], and
    the function [constructWebhookSignature]) together with the parts of the
    JavaScript runtime they call into: UTF-8 encoding of strings,
    HMAC-SHA256 with a hex digest, [crypto.timingSafeEqual], [parseInt],
    [JSON.parse] and property lookup on objects.

    Conventions of the model.
    - A JavaScript string is the list of its UTF-16 code units, each a [Z]
      in [0, 65535].  A [Buffer] is a list of bytes, each a [Z] in [0, 255].
    - A JavaScript number that holds a count of seconds is a [Z]; the model
      is exact on the safe integers, those below [2 ^ 53] in absolute value,
      which a double holds exactly and prints in plain decimal.  [NaN] is
      the [None] of an [option Z].
    - A call that can throw returns a [result]; the thrown object is an
      [error] carrying its class and its message.
    - The wall clock is an explicit argument [Date_now], in milliseconds. *)

From Stdlib Require Import ZArith Lia Bool Ascii String.
From stdpp Require Import gmap strings list.

Local Open Scope Z_scope.

(** ** Strings and buffers *)

Abbreviation jsstring := (list Z).
Abbreviation bytes := (list Z).

(** An ASCII literal of the source, as code units. *)
Fixpoint js (s : string) : jsstring :=
  match s with
  | EmptyString => []
  | String a r => Z.of_N (Ascii.N_of_ascii a) :: js r
  end.

Definition is_high_surrogate (c : Z) : bool := (0xD800 <=? c) && (c <? 0xDC00).
Definition is_low_surrogate (c : Z) : bool := (0xDC00 <=? c) && (c <? 0xE000).

(** U+FFFD, which the encoder writes for a surrogate without its partner. *)
Definition replacement : bytes := [0xEF; 0xBF; 0xBD].

(** [Buffer.from(s, 'utf8')] and the encoding [hmac.update(s, 'utf8')] uses. *)
Fixpoint utf8 (s : jsstring) : bytes :=
  match s with
  | [] => []
  | c :: r =>
    if c <? 0x80 then c :: utf8 r
    else if c <? 0x800 then 0xC0 + c / 64 :: 0x80 + c mod 64 :: utf8 r
    else if is_high_surrogate c then
      match r with
      | d :: r' =>
        if is_low_surrogate d then
          let cp := 0x10000 + (c - 0xD800) * 0x400 + (d - 0xDC00) in
          0xF0 + cp / 0x40000 :: 0x80 + (cp / 0x1000) mod 64
            :: 0x80 + (cp / 64) mod 64 :: 0x80 + cp mod 64 :: utf8 r'
        else replacement ++ utf8 r
      | [] => replacement
      end
    else if is_low_surrogate c then replacement ++ utf8 r
    else 0xE0 + c / 0x1000 :: 0x80 + (c / 64) mod 64 :: 0x80 + c mod 64 :: utf8 r
  end.

(** One hexadecimal digit, lower case, as a code unit. *)
Definition hex_digit (n : Z) : Z := if n <? 10 then 48 + n else 87 + n.

(** [buf.toString('hex')]: two digits per byte. *)
Fixpoint hex (b : bytes) : jsstring :=
  match b with
  | [] => []
  | x :: r => hex_digit (x / 16) :: hex_digit (x mod 16) :: hex r
  end.

(** ** SHA-256 and HMAC (node's [crypto.createHmac('sha256', key)]) *)

Module SHA256.

Definition mask32 : Z := 0xFFFFFFFF.
Definition add32 (a b : Z) : Z := Z.land (a + b) mask32.
Definition rotr (n x : Z) : Z :=
  Z.lor (Z.shiftr x n) (Z.land (Z.shiftl x (32 - n)) mask32).
Definition shr (n x : Z) : Z := Z.shiftr x n.
Definition not32 (x : Z) : Z := Z.lxor x mask32.

Definition Ch (x y z : Z) : Z := Z.lxor (Z.land x y) (Z.land (not32 x) z).
Definition Maj (x y z : Z) : Z :=
  Z.lxor (Z.lxor (Z.land x y) (Z.land x z)) (Z.land y z).
Definition Sigma0 (x : Z) : Z := Z.lxor (Z.lxor (rotr 2 x) (rotr 13 x)) (rotr 22 x).
Definition Sigma1 (x : Z) : Z := Z.lxor (Z.lxor (rotr 6 x) (rotr 11 x)) (rotr 25 x).
Definition sigma0 (x : Z) : Z := Z.lxor (Z.lxor (rotr 7 x) (rotr 18 x)) (shr 3 x).
Definition sigma1 (x : Z) : Z := Z.lxor (Z.lxor (rotr 17 x) (rotr 19 x)) (shr 10 x).

(** The first 64 primes. *)
Definition primes : list Z :=
  [ 2; 3; 5; 7; 11; 13; 17; 19; 23; 29; 31; 37; 41; 43; 47; 53; 59; 61; 67; 71;
    73; 79; 83; 89; 97; 101; 103; 107; 109; 113; 127; 131; 137; 139; 149; 151;
    157; 163; 167; 173; 179; 181; 191; 193; 197; 199; 211; 223; 227; 229; 233;
    239; 241; 251; 257; 263; 269; 271; 277; 281; 283; 293; 307; 311 ].

(** The largest [m + d] with [d < 2 ^ bits] whose cube is at most [n],
    found bit by bit from the top. *)
Fixpoint cube_root (bits : nat) (n m : Z) : Z :=
  match bits with
  | O => m
  | S b =>
    let m' := m + 2 ^ Z.of_nat b in
    cube_root b n (if m' * m' * m' <=? n then m' else m)
  end.

(** The first 32 bits of the fractional part of a cube root, of a square
    root. *)
Definition frac_cbrt (p : Z) : Z := Z.land (cube_root 40 (p * 2 ^ 96) 0) mask32.
Definition frac_sqrt (p : Z) : Z := Z.land (Z.sqrt (p * 2 ^ 64)) mask32.

(** The round constants: from the cube roots of the first 64 primes. *)
Definition K : list Z := Eval vm_compute in frac_cbrt <$> primes.

(** The initial hash value: from the square roots of the first 8 primes. *)
Definition H0 : list Z := Eval vm_compute in frac_sqrt <$> take 8 primes.

(** Big-endian bytes of a word of [n] bytes. *)
Fixpoint be_bytes (n : nat) (x : Z) : bytes :=
  match n with
  | O => []
  | S m => Z.land (Z.shiftr x (8 * Z.of_nat m)) 0xFF :: be_bytes m x
  end.

(** Padding: a 1 bit, zeros, and the length in bits on 64 bits. *)
Definition pad (msg : bytes) : bytes :=
  let len := Z.of_nat (length msg) in
  msg ++ [0x80] ++ replicate (Z.to_nat ((55 - len) mod 64)) 0 ++ be_bytes 8 (8 * len).

(** The 32-bit big-endian words of a byte string. *)
Fixpoint words (b : bytes) : list Z :=
  match b with
  | b0 :: b1 :: b2 :: b3 :: r =>
    (((b0 * 256 + b1) * 256 + b2) * 256 + b3) :: words r
  | _ => []
  end.

(** Message schedule: [win] holds W[t] .. W[t+15]; each step emits W[t]. *)
Fixpoint schedule (n : nat) (win : list Z) : list Z :=
  match n with
  | O => []
  | S m =>
    let w := fun i => nth i win 0 in
    let next := add32 (add32 (sigma1 (w 14%nat)) (w 9%nat))
                      (add32 (sigma0 (w 1%nat)) (w 0%nat)) in
    w 0%nat :: schedule m (tail win ++ [next])
  end.

Record regs := Regs { ra : Z; rb : Z; rc : Z; rd : Z; re : Z; rf : Z; rg : Z; rh : Z }.

Definition round (s : regs) (kw : Z * Z) : regs :=
  let t1 := add32 (add32 (add32 (rh s) (Sigma1 (re s))) (Ch (re s) (rf s) (rg s)))
                  (add32 (fst kw) (snd kw)) in
  let t2 := add32 (Sigma0 (ra s)) (Maj (ra s) (rb s) (rc s)) in
  Regs (add32 t1 t2) (ra s) (rb s) (rc s) (add32 (rd s) t1) (re s) (rf s) (rg s).

Definition of_list (h : list Z) : regs :=
  let w := fun i => nth i h 0 in
  Regs (w 0%nat) (w 1%nat) (w 2%nat) (w 3%nat) (w 4%nat) (w 5%nat) (w 6%nat) (w 7%nat).

Definition to_list (s : regs) : list Z :=
  [ra s; rb s; rc s; rd s; re s; rf s; rg s; rh s].

Definition compress (h : list Z) (block : list Z) : list Z :=
  let s := fold_left round (combine K (schedule 64 block)) (of_list h) in
  zip_with add32 h (to_list s).

(** All 16-word blocks of the padded message, in order. *)
Fixpoint process (n : nat) (h : list Z) (ws : list Z) : list Z :=
  match n with
  | O => h
  | S m => process m (compress h (take 16 ws)) (drop 16 ws)
  end.

Definition digest (msg : bytes) : bytes :=
  let ws := words (pad msg) in
  mjoin (be_bytes 4 <$> process (length ws / 16) H0 ws).

Definition block_size : nat := 64.

(** HMAC (RFC 2104) over SHA-256. *)
Definition hmac (key msg : bytes) : bytes :=
  let k0 := if (block_size <? length key)%nat then digest key else key in
  let k := k0 ++ replicate (block_size - length k0) 0 in
  let ipad := (fun x => Z.lxor x 0x36) <$> k in
  let opad := (fun x => Z.lxor x 0x5c) <$> k in
  digest (opad ++ digest (ipad ++ msg)).

End SHA256.

(** [crypto.createHmac('sha256', key).update(msg, 'utf8').digest('hex')],
    with a string key, which node encodes as UTF-8. *)
Definition hmac_sha256_hex (key msg : jsstring) : jsstring :=
  hex (SHA256.hmac (utf8 key) (utf8 msg)).

(** ** Numbers and [parseInt] *)

Definition is_digit (c : Z) : bool := (48 <=? c) && (c <=? 57).

(** Decimal digits of a non-negative integer, most significant first.
    [fuel] bounds the number of digits; [2 ^ fuel > n] is enough. *)
Fixpoint digits (fuel : nat) (n : Z) (acc : jsstring) : jsstring :=
  match fuel with
  | O => acc
  | S f =>
    let acc' := 48 + n mod 10 :: acc in
    if n <? 10 then acc' else digits f (n / 10) acc'
  end.

(** [n.toString()] and the [${n}] of a template literal, for an integer
    that a number holds exactly (up to [2 ^ 53 - 1] in size): every digit
    is printed.  Larger numbers are outside of it: the source prints at
    most 17 digits of them and, from [10 ^ 21] on, an exponent. *)
Definition Number_toString (n : Z) : jsstring :=
  if n <? 0 then 45 :: digits (S (Z.to_nat (Z.log2 (- n)))) (- n) []
  else digits (S (Z.to_nat (Z.log2 n))) n [].

(** The code units [parseInt] skips at the start: WhiteSpace and
    LineTerminator of ECMA-262. *)
Definition is_StrWhiteSpaceChar (c : Z) : bool :=
  (c =? 0x09) || (c =? 0x0A) || (c =? 0x0B) || (c =? 0x0C) || (c =? 0x0D)
  || (c =? 0x20) || (c =? 0xA0) || (c =? 0x1680)
  || ((0x2000 <=? c) && (c <=? 0x200A))
  || (c =? 0x2028) || (c =? 0x2029) || (c =? 0x202F) || (c =? 0x205F)
  || (c =? 0x3000) || (c =? 0xFEFF).

Fixpoint skip_StrWhiteSpace (s : jsstring) : jsstring :=
  match s with
  | c :: r => if is_StrWhiteSpaceChar c then skip_StrWhiteSpace r else s
  | [] => []
  end.

(** The longest prefix made of decimal digits. *)
Fixpoint digit_prefix (s : jsstring) : jsstring :=
  match s with
  | c :: r => if is_digit c then c :: digit_prefix r else []
  | [] => []
  end.

Definition digits_value (ds : jsstring) : Z :=
  fold_left (fun a c => 10 * a + (c - 48)) ds 0.

(** [parseInt(s, 10)]: leading white space is dropped, one sign is read,
    then the longest run of digits; what follows the digits is ignored.
    [None] is [NaN]. *)
Definition parseInt (s : jsstring) : option Z :=
  let s1 := skip_StrWhiteSpace s in
  let '(sign, s2) :=
    match s1 with
    | c :: r => if c =? 45 then (-1, r) else if c =? 43 then (1, r) else (1, s1)
    | [] => (1, s1)
    end in
  match digit_prefix s2 with
  | [] => None
  | ds => Some (sign * digits_value ds)
  end.

(** ** JSON values and [JSON.parse] *)

#[warnings="-register-all"]
Inductive json :=
| JNull
| JBool (b : bool)
| JNumber (lexeme : jsstring)
| JString (s : jsstring)
| JArray (items : list json)
| JObject (members : list (jsstring * json)).

Definition jsstring_eqb (a b : jsstring) : bool := bool_decide (a = b).

(** [o.k] on a parsed object: the value of the member, if there is one. *)
Fixpoint member (k : jsstring) (ms : list (jsstring * json)) : option json :=
  match ms with
  | [] => None
  | (k', v) :: r => if jsstring_eqb k k' then Some v else member k r
  end.

(** CreateDataProperty: a repeated key keeps its place and takes the new value. *)
Fixpoint define_property (ms : list (jsstring * json)) (k : jsstring) (v : json)
  : list (jsstring * json) :=
  match ms with
  | [] => [(k, v)]
  | (k', v') :: r =>
    if jsstring_eqb k k' then (k', v) :: r else (k', v') :: define_property r k v
  end.

Module JSON.

Definition is_ws (c : Z) : bool :=
  (c =? 0x20) || (c =? 0x09) || (c =? 0x0A) || (c =? 0x0D).

Fixpoint skip_ws (s : jsstring) : jsstring :=
  match s with
  | c :: r => if is_ws c then skip_ws r else s
  | [] => []
  end.

Fixpoint strip_prefix (p s : jsstring) : option jsstring :=
  match p, s with
  | [], _ => Some s
  | a :: p', b :: s' => if a =? b then strip_prefix p' s' else None
  | _ :: _, [] => None
  end.

Definition hex_value (c : Z) : option Z :=
  if is_digit c then Some (c - 48)
  else if (97 <=? c) && (c <=? 102) then Some (c - 87)
  else if (65 <=? c) && (c <=? 70) then Some (c - 55)
  else None.

(** The code unit an escape stands for, and what follows it. *)
Definition escape (s : jsstring) : option (Z * jsstring) :=
  match s with
  | c :: r =>
    if c =? 34 then Some (34, r)
    else if c =? 92 then Some (92, r)
    else if c =? 47 then Some (47, r)
    else if c =? 98 then Some (8, r)
    else if c =? 102 then Some (12, r)
    else if c =? 110 then Some (10, r)
    else if c =? 114 then Some (13, r)
    else if c =? 116 then Some (9, r)
    else if c =? 117 then
      match r with
      | h1 :: h2 :: h3 :: h4 :: r' =>
        match hex_value h1, hex_value h2, hex_value h3, hex_value h4 with
        | Some a, Some b, Some c', Some d =>
          Some (((a * 16 + b) * 16 + c') * 16 + d, r')
        | _, _, _, _ => None
        end
      | _ => None
      end
    else None
  | [] => None
  end.

(** The characters of a string after its opening quote, up to the closing
    one; [fuel] bounds the number of characters. *)
Fixpoint chars (fuel : nat) (s : jsstring) (acc : jsstring)
  : option (jsstring * jsstring) :=
  match fuel with
  | O => None
  | S f =>
    match s with
    | [] => None
    | c :: r =>
      if c =? 34 then Some (rev acc, r)
      else if c =? 92 then
        match escape r with
        | Some (u, r') => chars f r' (u :: acc)
        | None => None
        end
      else if c <? 0x20 then None
      else chars f r (c :: acc)
    end
  end.

(** One or more digits, and what follows them. *)
Definition digits1 (s : jsstring) : option (jsstring * jsstring) :=
  match digit_prefix s with
  | [] => None
  | ds => Some (ds, drop (length ds) s)
  end.

(** A number: its lexeme, and what follows it. *)
Definition number (s : jsstring) : option (jsstring * jsstring) :=
  let '(minus, s1) :=
    match s with
    | c :: r => if c =? 45 then ([45], r) else ([], s)
    | [] => ([], s)
    end in
  match s1 with
  | c :: r =>
    match (if c =? 48 then Some ([48], r) else digits1 s1) with
    | Some (int, s2) =>
      let frac :=
        match s2 with
        | d :: r2 =>
          if d =? 46 then
            match digits1 r2 with
            | Some (ds, s3) => Some (46 :: ds, s3)
            | None => None
            end
          else Some ([], s2)
        | [] => Some ([], s2)
        end in
      match frac with
      | Some (fr, s3) =>
        let exp :=
          match s3 with
          | e :: r3 =>
            if (e =? 101) || (e =? 69) then
              let '(sg, r4) :=
                match r3 with
                | g :: r4 => if (g =? 43) || (g =? 45) then ([g], r4) else ([], r3)
                | [] => ([], r3)
                end in
              match digits1 r4 with
              | Some (ds, s4) => Some (e :: sg ++ ds, s4)
              | None => None
              end
            else Some ([], s3)
          | [] => Some ([], s3)
          end in
        match exp with
        | Some (ex, s4) => Some (minus ++ int ++ fr ++ ex, s4)
        | None => None
        end
      | None => None
      end
    | None => None
    end
  | [] => None
  end.

(** A value, the elements of an array, the members of an object.  Every
    call uses one unit of [fuel]; between two calls of [value] at least one
    code unit is read and at most two units are used. *)
Fixpoint value (fuel : nat) (s : jsstring) : option (json * jsstring) :=
  match fuel with
  | O => None
  | S f =>
    match skip_ws s with
    | [] => None
    | c :: r =>
      if c =? 123 then
        match skip_ws r with
        | d :: r' => if d =? 125 then Some (JObject [], r') else members f (d :: r') []
        | [] => None
        end
      else if c =? 91 then
        match skip_ws r with
        | d :: r' => if d =? 93 then Some (JArray [], r') else elements f (d :: r') []
        | [] => None
        end
      else if c =? 34 then
        match chars (length r) r [] with
        | Some (str, r') => Some (JString str, r')
        | None => None
        end
      else if c =? 116 then
        match strip_prefix (js "rue") r with
        | Some r' => Some (JBool true, r')
        | None => None
        end
      else if c =? 102 then
        match strip_prefix (js "alse") r with
        | Some r' => Some (JBool false, r')
        | None => None
        end
      else if c =? 110 then
        match strip_prefix (js "ull") r with
        | Some r' => Some (JNull, r')
        | None => None
        end
      else
        match number (c :: r) with
        | Some (lexeme, r') => Some (JNumber lexeme, r')
        | None => None
        end
    end
  end
with elements (fuel : nat) (s : jsstring) (acc : list json)
  : option (json * jsstring) :=
  match fuel with
  | O => None
  | S f =>
    match value f s with
    | Some (v, r) =>
      match skip_ws r with
      | c :: r' =>
        if c =? 44 then elements f r' (v :: acc)
        else if c =? 93 then Some (JArray (rev (v :: acc)), r')
        else None
      | [] => None
      end
    | None => None
    end
  end
with members (fuel : nat) (s : jsstring) (acc : list (jsstring * json))
  : option (json * jsstring) :=
  match fuel with
  | O => None
  | S f =>
    match skip_ws s with
    | q :: r =>
      if q =? 34 then
        match chars (length r) r [] with
        | Some (k, r1) =>
          match skip_ws r1 with
          | c :: r2 =>
            if c =? 58 then
              match value f r2 with
              | Some (v, r3) =>
                let acc' := define_property acc k v in
                match skip_ws r3 with
                | d :: r4 =>
                  if d =? 44 then members f r4 acc'
                  else if d =? 125 then Some (JObject acc', r4)
                  else None
                | [] => None
                end
              | None => None
              end
            else None
          | [] => None
          end
        | None => None
        end
      else None
    | [] => None
    end
  end.

(** [JSON.parse(text)]; [None] when it throws a SyntaxError. *)
Definition parse (text : jsstring) : option json :=
  match value (2 * length text + 2) text with
  | Some (v, r) => match skip_ws r with [] => Some v | _ :: _ => None end
  | None => None
  end.

End JSON.

(** ** Thrown errors and calls that can throw *)

(** The error classes the file can end with.  [WebhookVerificationError] is
    the class the file declares; [RangeError] is what
    [crypto.timingSafeEqual] throws; [TypeError] is what the runtime throws
    on a call of something that is not a function; [OtherError] stands for
    what a caller's handler throws. *)
Inductive error :=
| WebhookVerificationError (message : string)
| RangeError (message : string)
| TypeError (message : string)
| OtherError (name message : string).

(** [e instanceof WebhookVerificationError]. *)
Definition instanceof_WebhookVerificationError (e : error) : bool :=
  match e with WebhookVerificationError _ => true | _ => false end.

Inductive result (A : Type) :=
| Ok (a : A)
| Throw (e : error).
Arguments Ok {A} a.
Arguments Throw {A} e.

(** The calls into the runtime a method makes, in the order it makes them. *)
Inductive op :=
| ReadClock
| ComputeHmac (key msg : jsstring)
| CompareBuffers (a b : bytes)
| ParseJson (text : jsstring).

(** A computation: the calls made so far and how it ended. *)
Definition M (A : Type) : Type := list op * result A.

Definition ret {A} (a : A) : M A := ([], Ok a).
Definition throw {A} (e : error) : M A := ([], Throw e).
Definition bind {A B} (m : M A) (f : A -> M B) : M B :=
  match m with
  | (t, Ok a) => let '(t', r) := f a in (t ++ t', r)
  | (t, Throw e) => (t, Throw e)
  end.
Definition call {A} (o : op) (r : result A) : M A := ([o], r).

Definition trace {A} (m : M A) : list op := fst m.
Definition outcome {A} (m : M A) : result A := snd m.

Notation "x <- m ;; k" := (bind m (fun x => k))
  (at level 100, m at next level, right associativity).
Notation "m ;;; k" := (bind m (fun _ => k))
  (at level 100, right associativity).

(** ** [crypto.timingSafeEqual] *)

Definition ERR_CRYPTO_TIMING_SAFE_EQUAL_LENGTH : error :=
  RangeError "Input buffers must have the same byte length".

(** Buffers of different byte lengths are refused with a [RangeError];
    buffers of one length are compared. *)
Definition timingSafeEqual (a b : bytes) : M bool :=
  call (CompareBuffers a b)
    (if (length a =? length b)%nat then Ok (bool_decide (a = b))
     else Throw ERR_CRYPTO_TIMING_SAFE_EQUAL_LENGTH).

Definition createHmac_sha256_hex (key msg : jsstring) : M jsstring :=
  call (ComputeHmac key msg) (Ok (hmac_sha256_hex key msg)).

Definition JSON_parse (text : jsstring) : M (option json) :=
  call (ParseJson text) (Ok (JSON.parse text)).

(** ** [WebhookHandler] *)

(** [WebhookVerificationOptions]; a field left out is [None]. *)
Record WebhookVerificationOptions := {
  opt_secret : option jsstring;
  opt_tolerance : option Z
}.

Record WebhookHandler := {
  secret : option jsstring;
  tolerance : Z
}.

(** [x || 300] on a number: [undefined] and [0] give the default. *)
Definition or_default (x : option Z) (d : Z) : Z :=
  match x with
  | Some t => if t =? 0 then d else t
  | None => d
  end.

(** The constructor. *)
Definition new_WebhookHandler (options : option WebhookVerificationOptions)
  : WebhookHandler :=
  {| secret := options ≫= opt_secret;
     tolerance := or_default (options ≫= opt_tolerance) 300 |}.

(** The secret when [this.secret] is truthy: defined and not empty. *)
Definition truthy_secret (this : WebhookHandler) : option jsstring :=
  match secret this with
  | Some (c :: r) => Some (c :: r)
  | _ => None
  end.

Definition secret_not_configured : error :=
  WebhookVerificationError "Webhook secret not configured".
Definition invalid_timestamp_format : error :=
  WebhookVerificationError "Invalid timestamp format".
Definition timestamp_out_of_window : error :=
  WebhookVerificationError "Webhook timestamp too old or from the future".
Definition invalid_signature : error :=
  WebhookVerificationError "Invalid webhook signature".
Definition invalid_payload_json : error :=
  WebhookVerificationError "Invalid webhook payload JSON".

(** [Math.floor(Date.now() / 1000)]. *)
Definition currentTime_of (Date_now : Z) : Z := Date_now / 1000.

(** The template literal [`${timestamp}.${payload}`]. *)
Definition signedPayload_of (timestamp payload : jsstring) : jsstring :=
  timestamp ++ 46 :: payload.

Definition verifySignature (this : WebhookHandler) (Date_now : Z)
  (payload signature timestamp : jsstring) : M bool :=
  match truthy_secret this with
  | None => throw secret_not_configured
  | Some key =>
    currentTime <- call ReadClock (Ok (currentTime_of Date_now)) ;;
    match parseInt timestamp with
    | None => throw invalid_timestamp_format
    | Some webhookTime =>
      if Z.abs (currentTime - webhookTime) >? tolerance this
      then throw timestamp_out_of_window
      else
        expectedSignature <-
          createHmac_sha256_hex key (signedPayload_of timestamp payload) ;;
        timingSafeEqual (utf8 signature) (utf8 expectedSignature)
    end
  end.

Definition parseWebhook (this : WebhookHandler) (Date_now : Z)
  (rawPayload signature timestamp : jsstring) : M json :=
  match truthy_secret this with
  | Some _ =>
    valid <- verifySignature this Date_now rawPayload signature timestamp ;;
    if valid then ret tt else throw invalid_signature
  | None => ret tt
  end ;;;
  parsed <- JSON_parse rawPayload ;;
  match parsed with
  | Some v => ret v
  | None => throw invalid_payload_json
  end.

Record SignatureAndTimestamp := {
  sig_signature : jsstring;
  sig_timestamp : jsstring
}.

(** [constructWebhookSignature(payload, secret, timestamp?)]; [timestamp ||
    now] replaces a timestamp left out, and the timestamp [0], by the clock. *)
Definition constructWebhookSignature (Date_now : Z)
  (payload secret : jsstring) (timestamp : option Z) : SignatureAndTimestamp :=
  let ts := or_default timestamp (currentTime_of Date_now) in
  let signedPayload := signedPayload_of (Number_toString ts) payload in
  {| sig_signature := hmac_sha256_hex secret signedPayload;
     sig_timestamp := Number_toString ts |}.

(** ** Decoded events *)

(** [BaseWebhookPayload]: the envelope every event has.  [WebhookPayload] is
    a union of six refinements of it, one per known tag; [parseWebhook]
    casts to it without a check, so the tag of a decoded event is any
    string. *)
Record WebhookPayload := {
  event : jsstring;
  timestamp : jsstring;
  webhook_id : jsstring;
  api_version : jsstring;
  data : list (jsstring * json)
}.

(** The six tags of [WebhookEventType]. *)
Definition WebhookEventType : list jsstring :=
  [ js "screening.completed"; js "screening.submitted";
    js "screening.payment_captured"; js "screening.failed";
    js "form.opened"; js "invite.sent" ].

(** The cast [JSON.parse(rawPayload) as WebhookPayload], read as a view: the
    parsed value seen through the interface, when it has the envelope's
    fields.  The tag is not looked at. *)
Definition as_WebhookPayload (v : json) : option WebhookPayload :=
  match v with
  | JObject ms =>
    match member (js "event") ms, member (js "timestamp") ms,
          member (js "webhook_id") ms, member (js "api_version") ms,
          member (js "data") ms with
    | Some (JString e), Some (JString t), Some (JString i), Some (JString a),
      Some (JObject d) =>
      Some {| event := e; timestamp := t; webhook_id := i; api_version := a;
              data := d |}
    | _, _, _, _, _ => None
    end
  | _ => None
  end.

(** ** Handler objects and the dispatcher *)

Section Dispatcher.

(** What the handlers act on: a database, a log, anything. *)
Context {W : Type}.

(** How a call ends once awaited: it returns (or its promise is fulfilled),
    or it throws (or its promise is rejected). *)
Inductive completion :=
| Normal
| Abrupt (e : error).

(** A function called as [f(data)]: its effect and its completion. *)
Definition callable : Type := list (jsstring * json) -> W -> W * completion.

(** What a property lookup on a handler object can give. *)
Inductive jsvalue :=
| VUndefined
| VFunction (f : callable)
| VObject.

(** An object: its own properties and those it inherits. *)
Record object := {
  own : gmap (list Z) jsvalue;
  inherited : gmap (list Z) jsvalue
}.

(** [o[k]]: an own property hides an inherited one. *)
Definition Get (o : object) (k : jsstring) : jsvalue :=
  match own o !! k with
  | Some v => v
  | None => default VUndefined (inherited o !! k)
  end.

Definition returns : callable := fun _ w => (w, Normal).
Definition throws_TypeError (message : string) : callable :=
  fun _ w => (w, Abrupt (TypeError message)).

(** The properties of [Object.prototype], as a plain call [f(data)] in
    strict code sees them ([this] is [undefined], [data] is an object):
    [Object] and [toString] return, the others fail on [this], and
    [__proto__] reads as the prototype object itself. *)
Definition Object_prototype : gmap (list Z) jsvalue :=
  list_to_map
    [ (js "constructor", VFunction returns);
      (js "toString", VFunction returns);
      (js "toLocaleString",
        VFunction (throws_TypeError
                     "Object.prototype.toLocaleString called on null or undefined"));
      (js "valueOf",
        VFunction (throws_TypeError "Cannot convert undefined or null to object"));
      (js "hasOwnProperty",
        VFunction (throws_TypeError "Cannot convert undefined or null to object"));
      (js "isPrototypeOf",
        VFunction (throws_TypeError "Cannot convert undefined or null to object"));
      (js "propertyIsEnumerable",
        VFunction (throws_TypeError "Cannot convert undefined or null to object"));
      (js "__defineGetter__",
        VFunction (throws_TypeError "Cannot convert undefined or null to object"));
      (js "__defineSetter__",
        VFunction (throws_TypeError "Cannot convert undefined or null to object"));
      (js "__lookupGetter__",
        VFunction (throws_TypeError "Cannot convert undefined or null to object"));
      (js "__lookupSetter__",
        VFunction (throws_TypeError "Cannot convert undefined or null to object"));
      (js "__proto__", VObject) ].

(** An object literal [{ tag: handler, ... }]. *)
Definition object_literal (props : gmap (list Z) jsvalue) : object :=
  {| own := props; inherited := Object_prototype |}.

(** How the promise of the dispatch function settles. *)
Inductive settled :=
| Fulfilled
| Rejected (reason : error).

Definition settle (c : completion) : settled :=
  match c with
  | Normal => Fulfilled
  | Abrupt e => Rejected e
  end.

(** [on(handlers)]: the dispatch function, an [async] arrow. *)
Definition on (handlers : object) (webhook : WebhookPayload) (w : W)
  : W * settled :=
  match Get handlers (event webhook) with
  | VUndefined => (w, Fulfilled)
  | VFunction handler =>
    let '(w', c) := handler (data webhook) w in (w', settle c)
  | VObject => (w, Rejected (TypeError "handler is not a function"))
  end.

End Dispatcher.

Arguments callable W : clear implicits.
Arguments jsvalue W : clear implicits.
Arguments object W : clear implicits.

(** ** Fixtures *)

(** A literal of the source that holds double quotes, written here with a
    single quote in the place of each. *)
Definition jsq (s : string) : jsstring :=
  (fun c => if c =? 39 then 34 else c) <$> js s.

Definition whsec_test : jsstring := js "whsec_test".

(** A handler made with a secret and no tolerance. *)
Definition handler_with (s : jsstring) : WebhookHandler :=
  new_WebhookHandler (Some {| opt_secret := Some s; opt_tolerance := None |}).

(** The payload of the concrete scenario. *)
Definition scenario_payload : jsstring :=
  jsq "{'event':'screening.failed','timestamp':'2024-01-01T00:00:00Z','webhook_id':'wh_1','api_version':'1.0','data':{'purchase_token':'abc','external_customer_id':'c1','external_tenant_id':'t1','status':'failed','reason':'no_response','errors':['tenant_timeout']}}".

(** The signature a sender computes for a timestamp header and a payload. *)
Definition sign (s timestamp payload : jsstring) : jsstring :=
  hmac_sha256_hex s (signedPayload_of timestamp payload).

(** Whether a trace holds a digest computation, a parse. *)
Definition computes_digest (t : list op) : bool :=
  existsb (fun o => match o with ComputeHmac _ _ => true | _ => false end) t.
Definition parses_json (t : list op) : bool :=
  existsb (fun o => match o with ParseJson _ => true | _ => false end) t.

(** A handler that notes its name in a log, and one that notes it and
    fails. *)
Definition logging (name : string) : callable (list string) :=
  fun _ log => (log ++ [name], Normal).
Definition failing (name : string) (e : error) : callable (list string) :=
  fun _ log => (log ++ [name], Abrupt e).

(** [{ 'screening.completed': ..., 'screening.failed': ... }]. *)
Definition two_handlers : object (list string) :=
  object_literal
    (<[js "screening.completed" := VFunction (logging "completed")]>
       (<[js "screening.failed" := VFunction (logging "failed")]> ∅)).

Definition database_down : error := OtherError "Error" "database is down".

(** The same map, with a handler for completed screenings that fails. *)
Definition failing_handlers : object (list string) :=
  object_literal
    (<[js "screening.completed" := VFunction (failing "completed" database_down)]>
       (<[js "screening.failed" := VFunction (logging "failed")]> ∅)).

(** An event with a given tag and an empty data bag. *)
Definition event_tagged (tag : jsstring) : WebhookPayload :=
  {| event := tag; timestamp := js "2024-01-01T00:00:00Z"; webhook_id := js "wh_1";
     api_version := js "1.0"; data := [] |}.

(** Payloads with a tag the types do not list. *)
Definition unknown_tag_payload : jsstring :=
  jsq "{'event':'new.unknown.tag','timestamp':'2024-01-01T00:00:00Z','webhook_id':'wh_2','api_version':'1.0','data':{'anything':[1,2]}}".
Definition proto_tag_payload : jsstring :=
  jsq "{'event':'__proto__','timestamp':'2024-01-01T00:00:00Z','webhook_id':'wh_3','api_version':'1.0','data':{}}".

(** ** Vocabulary of the statements *)

(** [Number.isSafeInteger(n)] for an integer. *)
Definition MAX_SAFE_INTEGER : Z := 2 ^ 53 - 1.
Definition isSafeInteger (n : Z) : Prop := Z.abs n <= MAX_SAFE_INTEGER.

Definition is_byte (x : Z) : Prop := 0 <= x < 256.
Definition is_ascii (c : Z) : Prop := c < 0x80.

(** What [timingSafeEqual] answers on the supplied and the expected
    signature, both encoded by [Buffer.from]. *)
Definition comparison (signature expectedSignature : jsstring) : result bool :=
  if (length (utf8 signature) =? length (utf8 expectedSignature))%nat
  then Ok (bool_decide (utf8 signature = utf8 expectedSignature))
  else Throw ERR_CRYPTO_TIMING_SAFE_EQUAL_LENGTH.

(** ** [buf.toString('utf8')] *)

Definition is_continuation (b : Z) : bool := (0x80 <=? b) && (b <=? 0xBF).

(** The UTF-8 decoder of [Buffer.prototype.toString]: a sequence that is not
    well-formed gives U+FFFD for its longest valid start and decoding goes
    on at the byte that broke it; a code point above U+FFFF comes out as a
    surrogate pair. *)
Fixpoint utf8_decode (b : bytes) : jsstring :=
  match b with
  | [] => []
  | b0 :: r =>
    if b0 <? 0x80 then b0 :: utf8_decode r
    else if (0xC2 <=? b0) && (b0 <=? 0xDF) then
      match r with
      | b1 :: r1 =>
        if is_continuation b1
        then (b0 - 0xC0) * 64 + (b1 - 0x80) :: utf8_decode r1
        else 0xFFFD :: utf8_decode r
      | [] => [0xFFFD]
      end
    else if (0xE0 <=? b0) && (b0 <=? 0xEF) then
      match r with
      | b1 :: r1 =>
        if ((if b0 =? 0xE0 then 0xA0 else 0x80) <=? b1)
           && (b1 <=? (if b0 =? 0xED then 0x9F else 0xBF))
        then
          match r1 with
          | b2 :: r2 =>
            if is_continuation b2
            then ((b0 - 0xE0) * 64 + (b1 - 0x80)) * 64 + (b2 - 0x80) :: utf8_decode r2
            else 0xFFFD :: utf8_decode r1
          | [] => [0xFFFD]
          end
        else 0xFFFD :: utf8_decode r
      | [] => [0xFFFD]
      end
    else if (0xF0 <=? b0) && (b0 <=? 0xF4) then
      match r with
      | b1 :: r1 =>
        if ((if b0 =? 0xF0 then 0x90 else 0x80) <=? b1)
           && (b1 <=? (if b0 =? 0xF4 then 0x8F else 0xBF))
        then
          match r1 with
          | b2 :: r2 =>
            if is_continuation b2 then
              match r2 with
              | b3 :: r3 =>
                if is_continuation b3 then
                  let cp := (((b0 - 0xF0) * 64 + (b1 - 0x80)) * 64 + (b2 - 0x80)) * 64
                            + (b3 - 0x80) in
                  0xD800 + (cp - 0x10000) / 0x400
                    :: 0xDC00 + (cp - 0x10000) mod 0x400 :: utf8_decode r3
                else 0xFFFD :: utf8_decode r2
              | [] => [0xFFFD]
              end
            else 0xFFFD :: utf8_decode r1
          | [] => [0xFFFD]
          end
        else 0xFFFD :: utf8_decode r
      | [] => [0xFFFD]
      end
    else 0xFFFD :: utf8_decode r
  end.

(** A string whose surrogates come in pairs, high then low. *)
Fixpoint well_formed (s : jsstring) : bool :=
  match s with
  | [] => true
  | c :: r =>
    if is_high_surrogate c then
      match r with
      | d :: r' => is_low_surrogate d && well_formed r'
      | [] => false
      end
    else (0 <=? c) && (c <? 0x10000) && negb (is_low_surrogate c) && well_formed r
  end.

(** ** [webhookMiddleware] *)

(** What [req.body] is when the middleware runs: the [Buffer] that
    [express.raw] leaves, the empty object a body parser leaves for a
    request it skipped, or nothing. *)
Inductive Body :=
| BodyBuffer (b : bytes)
| BodyObject
| BodyUndefined.

(** The request, as far as the middleware reads it; a header that is not
    there is [None]. *)
Record Request := {
  body : Body;
  x_singlekey_signature : option jsstring;
  x_singlekey_timestamp : option jsstring
}.

(** [req.body.toString('utf8')]. *)
Definition body_toString (b : Body) : result jsstring :=
  match b with
  | BodyBuffer bs => Ok (utf8_decode bs)
  | BodyObject => Ok (js "[object Object]")
  | BodyUndefined =>
    Throw (TypeError "Cannot read properties of undefined (reading 'toString')")
  end.

(** A header value that passes [!value] as present: defined and not empty. *)
Definition present (h : option jsstring) : option jsstring :=
  match h with
  | Some (c :: r) => Some (c :: r)
  | _ => None
  end.

(** The [catch] block: the status and the [error] field of the JSON sent. *)
Definition respond_to (e : error) : Z * string :=
  match e with
  | WebhookVerificationError message => (401, message)
  | _ => (400, "Invalid webhook payload"%string)
  end.

(** What a run of the middleware leaves: the runtime calls of
    [parseWebhook], [req.singlekeyWebhook], what [res.status(..).json(..)]
    sent if it was called, and the state after [next()] if it was called. *)
Record served (W : Type) := {
  ops : list op;
  singlekeyWebhook : option json;
  reply : option (Z * string);
  world : W
}.
Arguments ops {W} _.
Arguments singlekeyWebhook {W} _.
Arguments reply {W} _.
Arguments world {W} _.

(** The function [webhookMiddleware(options)] returns, run on a request;
    [next] sees the request with the webhook attached. *)
Definition webhookMiddleware {W} (options : option WebhookVerificationOptions)
  (Date_now : Z) (req : Request) (next : json -> W -> W * completion) (w : W)
  : served W :=
  let handler := new_WebhookHandler options in
  match body_toString (body req) with
  | Throw e =>
    {| ops := []; singlekeyWebhook := None; reply := Some (respond_to e); world := w |}
  | Ok rawBody =>
    match present (x_singlekey_signature req), present (x_singlekey_timestamp req) with
    | Some signature, Some timestamp =>
      match parseWebhook handler Date_now rawBody signature timestamp with
      | (t, Throw e) =>
        {| ops := t; singlekeyWebhook := None; reply := Some (respond_to e); world := w |}
      | (t, Ok webhook) =>
        let '(w', c) := next webhook w in
        {| ops := t; singlekeyWebhook := Some webhook;
           reply := match c with
                    | Normal => None
                    | Abrupt e => Some (respond_to e)
                    end;
           world := w' |}
      end
    | _, _ =>
      {| ops := []; singlekeyWebhook := None;
         reply := Some (400, "Missing webhook headers"%string); world := w |}
    end
  end.

(** The request a sender makes for a payload: the body is the payload in
    UTF-8, the headers are what [constructWebhookSignature] returns. *)
Definition signed_request (Date_now_sign : Z) (payload s : jsstring) (t : option Z)
  : Request :=
  let r := constructWebhookSignature Date_now_sign payload s t in
  {| body := BodyBuffer (utf8 payload);
     x_singlekey_signature := Some (sig_signature r);
     x_singlekey_timestamp := Some (sig_timestamp r) |}.

(** A [next] that notes the event it was given in a log. *)
Definition next_logging : json -> list json -> list json * completion :=
  fun webhook log => (log ++ [webhook], Normal).

(** A lower-case hexadecimal digit. *)
Definition is_lower_hex (c : Z) : bool := is_digit c || ((97 <=? c) && (c <=? 102)).

(** What the payload of the scenario parses to. *)
Definition scenario_event : json := default JNull (JSON.parse scenario_payload).

(** Options with a secret and nothing else. *)
Definition options_with (s : jsstring) : option WebhookVerificationOptions :=
  Some {| opt_secret := Some s; opt_tolerance := None |}.

(** ** Reports and polling ([ReportService]) *)

(** A report response, as far as the service reads it: [success], the
    member [singlekey_score] when the response has one (its value may be
    null), and [detail]. *)
Record ScreeningReportResponse := {
  success : bool;
  singlekey_score : option json;
  detail : option jsstring
}.

(** [report.success && 'singlekey_score' in report]. *)
Definition is_complete (report : ScreeningReportResponse) : bool :=
  success report && match singlekey_score report with Some _ => true | None => false end.

(** What the service does while it polls. *)
Inductive poll_event :=
| Fetched
| Slept (ms : Z).

(** A message of the source, from code units to a string. *)
Definition to_string (s : jsstring) : string :=
  string_of_list_ascii ((fun c => ascii_of_N (Z.to_N c)) <$> s).

(** [(x / 1000).toString()] for an integer [x] of at most 15 digits: the
    quotient, and the thousandths without trailing zeros when there are
    any.  A longer [x] is outside of it: the source prints the nearest
    number, whose last digits can differ. *)
Definition thousandths_toString (x : Z) : jsstring :=
  let a := Z.abs x in
  let r := a mod 1000 in
  (if x <? 0 then [45] else [])
  ++ Number_toString (a / 1000)
  ++ (if r =? 0 then []
      else if r mod 100 =? 0 then [46; 48 + r / 100]
      else if r mod 10 =? 0 then [46; 48 + r / 100; 48 + (r / 10) mod 10]
      else [46; 48 + r / 100; 48 + (r / 10) mod 10; 48 + r mod 10]).

(** The error thrown when the attempts are used up. *)
Definition did_not_complete (maxAttempts intervalMs : Z) : error :=
  OtherError "Error"
    (to_string (js "Report did not complete after " ++ Number_toString maxAttempts
                ++ js " attempts (" ++ thousandths_toString (maxAttempts * intervalMs)
                ++ js "s)")).

(** [{ maxAttempts?, intervalMs? }]. *)
Record PollingOptions := {
  opt_maxAttempts : option Z;
  opt_intervalMs : option Z
}.

Section Polling.

(** The server: what the call of [get] number [attempt] gives, a report or
    the error [get] throws. *)
Variable responses : nat -> result ScreeningReportResponse.

Variables maxAttempts intervalMs : Z.

(** The loop from [attempt] on; [remaining] is the number of values of
    [attempt] below [maxAttempts] still to come, so that [O] is the exit of
    the loop. *)
Fixpoint poll_from (remaining attempt : nat)
  : list poll_event * result ScreeningReportResponse :=
  match remaining with
  | O => ([], Throw (did_not_complete maxAttempts intervalMs))
  | S k =>
    match responses attempt with
    | Throw e => ([Fetched], Throw e)
    | Ok report =>
      if is_complete report then ([Fetched], Ok report)
      else
        let pause :=
          if Z.of_nat attempt <? maxAttempts - 1 then [Slept intervalMs] else [] in
        let '(t, r) := poll_from k (S attempt) in
        (Fetched :: pause ++ t, r)
    end
  end.

End Polling.

(** [waitForCompletion(purchaseToken, options)]. *)
Definition waitForCompletion (responses : nat -> result ScreeningReportResponse)
  (options : PollingOptions) : list poll_event * result ScreeningReportResponse :=
  let maxAttempts := or_default (opt_maxAttempts options) 40 in
  let intervalMs := or_default (opt_intervalMs options) 10000 in
  poll_from responses maxAttempts intervalMs (Z.to_nat maxAttempts) 0.

(** [isReady(purchaseToken)], on what its one call of [get] gives. *)
Definition isReady (response : result ScreeningReportResponse) : bool :=
  match response with
  | Ok report => is_complete report
  | Throw _ => false
  end.

(** [getStatus(purchaseToken)], on what its one call of [get] gives. *)
Definition getStatus (response : result ScreeningReportResponse) : result jsstring :=
  match response with
  | Ok report =>
    Ok match detail report with
       | Some (c :: r) => c :: r
       | _ => js "Unknown status"
       end
  | Throw e => Throw e
  end.

(** The response that settles the polling: a complete report, or an error. *)
Definition decisive (response : result ScreeningReportResponse) : bool :=
  match response with
  | Ok report => is_complete report
  | Throw _ => true
  end.

(** [k] fetches with a sleep after each, then one more fetch. *)
Definition fetches_with_sleeps (k : nat) (intervalMs : Z) : list poll_event :=
  mjoin (replicate k [Fetched; Slept intervalMs]) ++ [Fetched].

Definition in_progress : ScreeningReportResponse :=
  {| success := true; singlekey_score := None;
     detail := Some (js "Report creation in progress") |}.
Definition completed_report : ScreeningReportResponse :=
  {| success := true; singlekey_score := Some (JNumber (js "720")); detail := None |}.

(** A server that has the report ready at the third call. *)
Definition ready_at_third (attempt : nat) : result ScreeningReportResponse :=
  if (attempt <? 2)%nat then Ok in_progress else Ok completed_report.

(** The fetches and the sleeps of a run. *)
Fixpoint fetches (t : list poll_event) : nat :=
  match t with
  | [] => 0
  | Fetched :: r => S (fetches r)
  | Slept _ :: r => fetches r
  end.
Fixpoint sleeps (t : list poll_event) : nat :=
  match t with
  | [] => 0
  | Fetched :: r => sleeps r
  | Slept _ :: r => S (sleeps r)
  end.

(** The run that uses up [n] attempts: a sleep between two fetches, none
    after the last. *)
Definition used_up (n : nat) (intervalMs : Z) : list poll_event :=
  match n with
  | O => []
  | S m => fetches_with_sleeps m intervalMs
  end.

(** [s.trim()]: white space is dropped at both ends. *)
Definition trim (s : jsstring) : jsstring :=
  rev (skip_StrWhiteSpace (rev (skip_StrWhiteSpace s))).

(** ** The errors of the SDK and [HttpClient.handleError] *)

Module Http.

(** [ErrorResponse], as far as [handleError] reads it. *)
Record ErrorResponse := {
  detail : option jsstring;
  errors : option (list jsstring)
}.

(** The response an [AxiosError] carries; [data] is [None] when the body
    is not an object with the fields above. *)
Record AxiosResponse := {
  status : Z;
  data : option ErrorResponse
}.

Record AxiosError := {
  message : jsstring;
  response : option AxiosResponse
}.

(** The error classes of the SDK that [handleError] builds, with their
    fields. *)
Inductive SingleKeyError :=
| AuthenticationError (message : jsstring)
| ValidationError (message : jsstring) (errors : list jsstring)
| NotFoundError (message : jsstring)
| RateLimitError (message : jsstring)
| ServerError (message : jsstring) (statusCode : Z)
| APIError (message : jsstring) (statusCode : Z) (response : option ErrorResponse).

(** [errorData?.detail || error.message]. *)
Definition message_of (errorData : option ErrorResponse) (error : AxiosError) : jsstring :=
  match errorData ≫= detail with
  | Some (c :: r) => c :: r
  | _ => message error
  end.

Definition handleError (error : AxiosError) : SingleKeyError :=
  match response error with
  | None => ServerError (js "Network error: " ++ message error) 500
  | Some r =>
    let errorData := data r in
    let message := message_of errorData error in
    if status r =? 400 then ValidationError message (default [] (errorData ≫= errors))
    else if status r =? 401 then AuthenticationError message
    else if status r =? 404 then NotFoundError message
    else if status r =? 429 then RateLimitError message
    else if (status r =? 500) || (status r =? 502) || (status r =? 503) || (status r =? 504)
    then ServerError message (status r)
    else APIError message (status r) errorData
  end.

(** [get], [post], [put] and [delete]: the data of the response, or the
    error of axios through [handleError]. *)
Definition request {T : Type} (settled : T + AxiosError) : T + SingleKeyError :=
  match settled with
  | inl d => inl d
  | inr e => inr (handleError e)
  end.

(** The message and, where the class has one, the status code of an error. *)
Definition message_in (e : SingleKeyError) : jsstring :=
  match e with
  | AuthenticationError m | ValidationError m _ | NotFoundError m | RateLimitError m
  | ServerError m _ | APIError m _ _ => m
  end.
Definition statusCode_in (e : SingleKeyError) : option Z :=
  match e with
  | ServerError _ c | APIError _ c _ => Some c
  | _ => None
  end.
Definition is_ServerError (e : SingleKeyError) : bool :=
  match e with ServerError _ _ => true | _ => false end.
Definition is_APIError (e : SingleKeyError) : bool :=
  match e with APIError _ _ _ => true | _ => false end.

End Http.

(** ** The configuration of the client *)

Module Client.

(** A JavaScript number, as far as the configuration tells numbers apart:
    an integer, or one of the values that are not finite. *)
Inductive number :=
| Num (z : Z)
| NaN
| Infinity
| NegInfinity.

(** [SingleKeyConfig]; a field left out is [None]. *)
Record SingleKeyConfig := {
  apiToken : option jsstring;
  environment : option jsstring;
  baseUrl : option jsstring;
  timeout : option number
}.

Definition is_Some_b {A} (x : option A) : bool :=
  match x with Some _ => true | None => false end.

Definition truthy_string (s : option jsstring) : option jsstring :=
  match s with
  | Some (c :: r) => Some (c :: r)
  | _ => None
  end.

(** A number that is truthy: not [0], not [NaN]. *)
Definition truthy_number (n : option number) : option number :=
  match n with
  | Some (Num z) => if z =? 0 then None else Some (Num z)
  | Some NaN => None
  | Some x => Some x
  | None => None
  end.

(** [n < 0] and [Number.isFinite(n)]. *)
Definition negative (n : number) : bool :=
  match n with
  | Num z => z <? 0
  | NegInfinity => true
  | _ => false
  end.
Definition isFinite (n : number) : bool :=
  match n with
  | Num _ => true
  | _ => false
  end.

Definition sandbox_url : jsstring := js "https://sandbox.singlekey.com".
Definition production_url : jsstring := js "https://platform.singlekey.com".

(** One [if (...) throw new ConfigurationError(message)] before [rest]. *)
Definition throw_if (failed : bool) (message : string) (rest : option string)
  : option string :=
  if failed then Some message else rest.

(** [validateConfig]: the message of the [ConfigurationError] it throws, or
    [None] when it returns. *)
Definition validateConfig (config : SingleKeyConfig) : option string :=
  throw_if (negb (is_Some_b (truthy_string (apiToken config))))
    "API token is required"
  (throw_if (length (trim (default [] (apiToken config))) =? 0)%nat
    "API token must be a non-empty string"
  (throw_if
     (match truthy_string (environment config) with
      | Some env =>
        negb (bool_decide (env = js "sandbox") || bool_decide (env = js "production"))
      | None => false
      end)
    (to_string (jsq "Environment must be 'sandbox' or 'production'"))
  (throw_if
     (match truthy_number (timeout config) with
      | Some n => negative n || negb (isFinite n)
      | None => false
      end)
    "Timeout must be a positive number"
  None))).

(** [ENVIRONMENT_URLS[name]] when it is one of the two URLs. *)
Definition ENVIRONMENT_URLS (name : jsstring) : option jsstring :=
  if bool_decide (name = js "sandbox") then Some sandbox_url
  else if bool_decide (name = js "production") then Some production_url
  else None.

(** The [baseURL] and the [timeout] the constructor of [HttpClient] gives
    to axios. *)
Definition axios_baseURL (config : SingleKeyConfig) : option jsstring :=
  match truthy_string (baseUrl config) with
  | Some url => Some url
  | None =>
    ENVIRONMENT_URLS
      (match truthy_string (environment config) with
       | Some env => env
       | None => js "production"
       end)
  end.

Definition axios_timeout (config : SingleKeyConfig) : number :=
  match truthy_number (timeout config) with
  | Some n => n
  | None => Num 30000
  end.

(** [getBaseUrl()]. *)
Definition getBaseUrl (config : SingleKeyConfig) : jsstring :=
  match truthy_string (baseUrl config) with
  | Some url => url
  | None =>
    if bool_decide (environment config = Some (js "sandbox"))
    then sandbox_url else production_url
  end.

End Client.

(** ** The validation utilities *)

Module Validation.

(** [s.replace(/\D/g, '')]: the decimal digits of [s], in order. *)
Definition digitsOnly (s : jsstring) : jsstring := List.filter is_digit s.

Definition isValidPhone (phone : jsstring) : bool :=
  let digits := digitsOnly phone in
  (length digits =? 10)%nat || (length digits =? 11)%nat.

Definition normalizePhone (phone : jsstring) : jsstring :=
  let digits := digitsOnly phone in
  match digits with
  | c :: r => if (length digits =? 11)%nat && (c =? 49) then r else digits
  | [] => digits
  end.

Definition isValidSIN (sin : jsstring) : bool := (length (digitsOnly sin) =? 9)%nat.
Definition normalizeSIN (sin : jsstring) : jsstring := digitsOnly sin.

(** [{ valid, error? }]. *)
Record validation := {
  valid : bool;
  error : option string
}.

(** [s.split(',')]. *)
Fixpoint split_comma (s : jsstring) : list jsstring :=
  match s with
  | [] => [[]]
  | c :: r =>
    if c =? 44 then [] :: split_comma r
    else
      match split_comma r with
      | part :: parts => (c :: part) :: parts
      | [] => [[c]]
      end
  end.

Definition isValidAddress (address : jsstring) : validation :=
  if match address with [] => true | _ :: _ => false end
     || (length (trim address) =? 0)%nat
  then {| valid := false; error := Some "Address is required"%string |}
  else
    let parts := trim <$> split_comma address in
    if (length parts <? 3)%nat
    then {| valid := false;
            error := Some "Address must include street, city, and province/state separated by commas"%string |}
    else {| valid := true; error := None |}.

Definition formatAddress (street city provinceState country postalZip : jsstring)
  : jsstring :=
  street ++ js ", " ++ city ++ js ", " ++ provinceState ++ js ", " ++ country
  ++ js ", " ++ postalZip.

(** The numbers the validators are given.  Their parameters are typed
    [number], so that besides an integer an argument can be [NaN] or
    infinite: [Client.number]. *)
Import Client.

(** [a < b] and [a === b]; [a > b] is [lt b a].  A comparison with [NaN]
    is false. *)
Definition lt (a b : number) : bool :=
  match a, b with
  | NaN, _ => false
  | _, NaN => false
  | Num x, Num y => x <? y
  | Num _, Infinity => true
  | Num _, NegInfinity => false
  | Infinity, _ => false
  | NegInfinity, NegInfinity => false
  | NegInfinity, _ => true
  end.
Definition gt (a b : number) : bool := lt b a.
Definition strict_eq (a b : number) : bool :=
  match a, b with
  | Num x, Num y => x =? y
  | Infinity, Infinity => true
  | NegInfinity, NegInfinity => true
  | _, _ => false
  end.

(** [a - b]. *)
Definition minus (a b : number) : number :=
  match a, b with
  | NaN, _ => NaN
  | _, NaN => NaN
  | Num x, Num y => Num (x - y)
  | Num _, Infinity => NegInfinity
  | Num _, NegInfinity => Infinity
  | Infinity, Infinity => NaN
  | Infinity, _ => Infinity
  | NegInfinity, NegInfinity => NaN
  | NegInfinity, _ => NegInfinity
  end.

(** [${n}]. *)
Definition number_toString (n : number) : jsstring :=
  match n with
  | Num z => Number_toString z
  | NaN => js "NaN"
  | Infinity => js "Infinity"
  | NegInfinity => js "-Infinity"
  end.

(** The fields of [new Date()] the validators read, in local time;
    [getMonth] counts from 0. *)
Record Today := {
  getFullYear : Z;
  getMonth : Z;
  getDate : Z
}.

Definition isValidCardExpiration (now : Today) (month year : number) : bool :=
  if lt month (Num 1) || gt month (Num 12) then false
  else
    let currentYear := Num (getFullYear now) in
    let currentMonth := Num (getMonth now + 1) in
    if lt year currentYear then false
    else if strict_eq year currentYear && lt month currentMonth then false
    else true.

Definition is_leap (year : Z) : bool :=
  (year mod 4 =? 0) && (negb (year mod 100 =? 0) || (year mod 400 =? 0)).

(** The number of days of a month from 1 to 12. *)
Definition month_length (year month : Z) : Z :=
  if month =? 2 then (if is_leap year then 29 else 28)
  else if (month =? 4) || (month =? 6) || (month =? 9) || (month =? 11) then 30
  else 31.

(** [new Date(year, month, 0).getDate()], where the validator calls it: the
    year is [NaN] or an integer from 1900 to the current year, the month is
    [NaN] or an integer from 1 to 12.  With [NaN] the date is invalid and
    the getter gives [NaN]. *)
Definition daysInMonth (year month : number) : number :=
  match year, month with
  | Num y, Num m => Num (month_length y m)
  | _, _ => NaN
  end.

(** [new Date(year, monthIndex, day)], where the validator calls it: three
    integers that name a day of the calendar, which the getters read back
    as given, or an argument that is [NaN] or infinite, which makes the
    date invalid ([None]). *)
Definition new_Date (year monthIndex day : number) : option Today :=
  match year, monthIndex, day with
  | Num y, Num m, Num d => Some {| getFullYear := y; getMonth := m; getDate := d |}
  | _, _, _ => None
  end.

(** A getter of a date that may be invalid. *)
Definition get (field : Today -> Z) (date : option Today) : number :=
  match date with
  | Some d => Num (field d)
  | None => NaN
  end.

Definition isValidDateOfBirth (now : Today) (year month day : number) : validation :=
  if lt year (Num 1900) || gt year (Num (getFullYear now))
  then {| valid := false; error := Some "Invalid year"%string |}
  else if lt month (Num 1) || gt month (Num 12)
  then {| valid := false; error := Some "Month must be between 1 and 12"%string |}
  else
    let daysInMonth := daysInMonth year month in
    if lt day (Num 1) || gt day daysInMonth
    then {| valid := false;
            error := Some (to_string (js "Day must be between 1 and "
                                      ++ number_toString daysInMonth
                                      ++ js " for this month")) |}
    else
      let birthDate := new_Date year (minus month (Num 1)) day in
      let age := minus (Num (getFullYear now)) (get getFullYear birthDate) in
      let monthDiff := minus (Num (getMonth now)) (get getMonth birthDate) in
      let age :=
        if lt monthDiff (Num 0)
           || (strict_eq monthDiff (Num 0)
               && lt (Num (getDate now)) (get getDate birthDate))
        then minus age (Num 1) else age in
      if lt age (Num 18)
      then {| valid := false; error := Some "Applicant must be at least 18 years old"%string |}
      else {| valid := true; error := None |}.

(** One day is not after another, as (year, month, day). *)
Definition not_after (a b : Today) : Prop :=
  getFullYear a < getFullYear b
  \/ (getFullYear a = getFullYear b
      /\ (getMonth a < getMonth b \/ (getMonth a = getMonth b /\ getDate a <= getDate b))).

(** A number that is [NaN], or an integer with a property. *)
Definition NaN_or (P : Z -> Prop) (n : number) : Prop :=
  n = NaN \/ exists z, n = Num z /\ P z.

Definition count_commas (s : jsstring) : nat :=
  length (List.filter (fun c => c =? 44) s).

End Validation.

(** * Properties *)

(** ** The runtime model against known values *)

Example SHA256_constants :
  nth 0 SHA256.K 0 = 0x428a2f98 /\ nth 63 SHA256.K 0 = 0xc67178f2
  /\ nth 0 SHA256.H0 0 = 0x6a09e667 /\ nth 7 SHA256.H0 0 = 0x5be0cd19.
Proof. repeat split; reflexivity. Qed.

Example sha256_abc :
  hex (SHA256.digest (utf8 (js "abc")))
  = js "ba7816bf8f01cfea414140de5dae2223b00361a396177a9cb410ff61f20015ad".
Proof. vm_compute. reflexivity. Qed.

Example hmac_sha256_fox :
  hmac_sha256_hex (js "key") (js "The quick brown fox jumps over the lazy dog")
  = js "f7bc83f430538424b13298e6aa6fb143ef4d59a14946175997479dbc2d1a3cd8".
Proof. vm_compute. reflexivity. Qed.

Example utf8_euro_and_pair :
  utf8 [0x20AC; 0xD83D; 0xDE00; 0xD83D] = [0xE2; 0x82; 0xAC; 0xF0; 0x9F; 0x98; 0x80; 0xEF; 0xBF; 0xBD].
Proof. reflexivity. Qed.

Example parseInt_samples :
  parseInt (js "1700000000") = Some 1700000000
  /\ parseInt (js "  -12abc") = Some (-12)
  /\ parseInt (js "1.5") = Some 1
  /\ parseInt (js "abc") = None
  /\ parseInt (js "+") = None
  /\ parseInt [] = None.
Proof. repeat split; reflexivity. Qed.

Example JSON_parse_samples :
  JSON.parse (jsq "{'a': [1, true, null], 'a': 'x'}")
    = Some (JObject [(js "a", JString (js "x"))])
  /\ JSON.parse (jsq "[1,]") = None
  /\ JSON.parse (jsq "01") = None
  /\ JSON.parse (jsq "{") = None
  /\ JSON.parse (jsq "'\u0041\n'") = Some (JString [65; 10])
  /\ JSON.parse (jsq "null") = Some JNull.
Proof. repeat split; vm_compute; reflexivity. Qed.

(** ** Decimal strings *)

Lemma digits_acc (fuel : nat) : forall n acc,
  digits fuel n acc = digits fuel n [] ++ acc.
Proof.
  induction fuel as [|f IH]; intros n acc; simpl; [reflexivity|].
  destruct (n <? 10); [reflexivity|].
  rewrite (IH _ (_ :: acc)), (IH _ [_]), <- app_assoc. reflexivity.
Qed.

Lemma digits_S (f : nat) (n : Z) (acc : jsstring) :
  digits (S f) n acc
  = if n <? 10 then 48 + n mod 10 :: acc else digits f (n / 10) (48 + n mod 10 :: acc).
Proof. reflexivity. Qed.

Lemma digits_value_snoc (ds : jsstring) (c : Z) :
  digits_value (ds ++ [c]) = 10 * digits_value ds + (c - 48).
Proof. unfold digits_value. rewrite fold_left_app. reflexivity. Qed.

Lemma digits_spec (f : nat) : forall n,
  0 <= n < 2 ^ Z.of_nat (S f) ->
  Forall (fun c => is_digit c = true) (digits (S f) n [])
  /\ digits (S f) n [] <> []
  /\ digits_value (digits (S f) n []) = n.
Proof.
  induction f as [|f IH]; intros n Hn.
  - assert (n = 0 \/ n = 1) as [-> | ->] by (change (2 ^ Z.of_nat 1) with 2 in Hn; lia);
      repeat split; try discriminate; repeat constructor.
  - rewrite (digits_S (S f)). destruct (Z.ltb_spec n 10) as [Hlt | Hge].
    + repeat split; try discriminate.
      * constructor; [|constructor]. unfold is_digit.
        pose proof (Z.mod_pos_bound n 10). lia.
      * unfold digits_value; cbn. rewrite Z.mod_small by lia. lia.
    + assert (0 <= n / 10 < 2 ^ Z.of_nat (S f)) as Hq.
      { split; [apply Z.div_pos; lia|].
        apply Z.div_lt_upper_bound; [lia|].
        rewrite (Nat2Z.inj_succ (S f)), Z.pow_succ_r in Hn by lia.
        pose proof (Z.pow_pos_nonneg 2 (Z.of_nat (S f))). lia. }
      destruct (IH _ Hq) as (Hall & Hne & Hval).
      rewrite (digits_acc (S f)). repeat split.
      * apply Forall_app; split; [exact Hall|].
        constructor; [|constructor]. unfold is_digit.
        pose proof (Z.mod_pos_bound n 10). lia.
      * intros E. apply app_eq_nil in E. destruct E as [_ E]. discriminate.
      * rewrite digits_value_snoc, Hval.
        pose proof (Z.div_mod n 10). lia.
Qed.

Lemma log2_fuel (n : Z) : 0 <= n -> 0 <= n < 2 ^ Z.of_nat (S (Z.to_nat (Z.log2 n))).
Proof.
  intros Hn. split; [exact Hn|].
  rewrite Nat2Z.inj_succ, Z2Nat.id by apply Z.log2_nonneg.
  destruct (Z.eq_dec n 0) as [-> | Hnz]; [reflexivity|].
  apply Z.log2_spec. lia.
Qed.

Lemma digit_not_white (c : Z) : is_digit c = true -> is_StrWhiteSpaceChar c = false.
Proof. unfold is_digit, is_StrWhiteSpaceChar. intros H. lia. Qed.

Lemma digit_prefix_all (ds : jsstring) :
  Forall (fun c => is_digit c = true) ds -> digit_prefix ds = ds.
Proof. induction 1 as [|c r Hc _ IH]; simpl; [reflexivity|]. rewrite Hc, IH. reflexivity. Qed.

(** A string of digits reads as its value. *)
Lemma parseInt_digits (ds : jsstring) :
  Forall (fun c => is_digit c = true) ds -> ds <> [] ->
  parseInt ds = Some (digits_value ds).
Proof.
  intros Hall Hne. destruct ds as [|c r]; [congruence|].
  pose proof (Forall_inv Hall) as Hc.
  unfold parseInt. cbn [skip_StrWhiteSpace]. rewrite (digit_not_white _ Hc).
  assert ((c =? 45) = false) as -> by (unfold is_digit in Hc; lia).
  assert ((c =? 43) = false) as -> by (unfold is_digit in Hc; lia).
  rewrite (digit_prefix_all _ Hall). f_equal. lia.
Qed.

Lemma digit_prefix_app (ds rest : jsstring) (c : Z) :
  Forall (fun c => is_digit c = true) ds -> is_digit c = false ->
  digit_prefix (ds ++ c :: rest) = ds.
Proof.
  intros Hall Hc. induction Hall as [|x l Hx _ IH]; simpl.
  - rewrite Hc. reflexivity.
  - rewrite Hx, IH. reflexivity.
Qed.

(** What follows the digits is ignored. *)
Lemma parseInt_trailing (ds rest : jsstring) (c : Z) :
  Forall (fun c => is_digit c = true) ds -> ds <> [] -> is_digit c = false ->
  parseInt (ds ++ c :: rest) = Some (digits_value ds).
Proof.
  intros Hall Hne Hc. destruct ds as [|d r]; [congruence|].
  pose proof (Forall_inv Hall) as Hd.
  unfold parseInt. cbn [skip_StrWhiteSpace app]. rewrite (digit_not_white _ Hd).
  assert ((d =? 45) = false) as -> by (unfold is_digit in Hd; lia).
  assert ((d =? 43) = false) as -> by (unfold is_digit in Hd; lia).
  change (d :: r ++ c :: rest) with ((d :: r) ++ c :: rest).
  rewrite (digit_prefix_app _ _ _ Hall Hc). f_equal. lia.
Qed.

(** Reading back the decimal string of an integer gives the integer. *)
Lemma parseInt_Number_toString (n : Z) : parseInt (Number_toString n) = Some n.
Proof.
  unfold Number_toString. destruct (Z.ltb_spec n 0) as [Hneg | Hpos].
  - destruct (digits_spec _ _ (log2_fuel (- n) ltac:(lia))) as (Hall & Hne & Hval).
    set (ds := digits _ _ _) in *.
    unfold parseInt. cbn [skip_StrWhiteSpace].
    change (is_StrWhiteSpaceChar 45) with false. cbn beta iota.
    change (45 =? 45) with true. cbn beta iota.
    rewrite (digit_prefix_all _ Hall).
    destruct ds as [|c r]; [congruence|]. f_equal. lia.
  - destruct (digits_spec _ _ (log2_fuel n Hpos)) as (Hall & Hne & Hval).
    rewrite (parseInt_digits _ Hall Hne). congruence.
Qed.

(** ** The digest is 64 ASCII characters *)

Lemma compress_length (h block : list Z) :
  length h = 8%nat -> length (SHA256.compress h block) = 8%nat.
Proof.
  intros Hh. unfold SHA256.compress. rewrite length_zip_with, Hh. reflexivity.
Qed.

Lemma process_length (n : nat) : forall h ws,
  length h = 8%nat -> length (SHA256.process n h ws) = 8%nat.
Proof.
  induction n as [|n IH]; intros h ws Hh; simpl; [exact Hh|].
  apply IH, compress_length, Hh.
Qed.

Lemma be_bytes_bytes (n : nat) (x : Z) : Forall is_byte (SHA256.be_bytes n x).
Proof.
  induction n as [|n IH]; simpl; constructor; [|exact IH].
  unfold is_byte. change 255 with (Z.ones 8). rewrite Z.land_ones by lia.
  apply Z.mod_pos_bound. lia.
Qed.

Lemma be_bytes_length (n : nat) (x : Z) : length (SHA256.be_bytes n x) = n.
Proof. induction n as [|n IH]; simpl; [reflexivity|]. rewrite IH. reflexivity. Qed.

Lemma join_words (l : list Z) :
  length (mjoin (SHA256.be_bytes 4 <$> l)) = (4 * length l)%nat
  /\ Forall is_byte (mjoin (SHA256.be_bytes 4 <$> l)).
Proof.
  induction l as [|x l [IHl IHb]]; [split; [reflexivity | constructor]|].
  change (mjoin (SHA256.be_bytes 4 <$> x :: l))
    with (SHA256.be_bytes 4 x ++ mjoin (SHA256.be_bytes 4 <$> l)).
  split.
  - rewrite length_app, be_bytes_length, IHl. simpl. lia.
  - apply Forall_app. split; [apply be_bytes_bytes | exact IHb].
Qed.

Lemma digest_shape (msg : bytes) :
  length (SHA256.digest msg) = 32%nat /\ Forall is_byte (SHA256.digest msg).
Proof.
  unfold SHA256.digest.
  destruct (join_words (SHA256.process (length (SHA256.words (SHA256.pad msg)) / 16)
                          SHA256.H0 (SHA256.words (SHA256.pad msg)))) as [Hl Hb].
  split; [|exact Hb]. rewrite Hl, process_length; reflexivity.
Qed.

Lemma hex_shape (b : bytes) :
  Forall is_byte b ->
  length (hex b) = (2 * length b)%nat /\ Forall is_ascii (hex b).
Proof.
  induction 1 as [|x r Hx _ [IHl IHa]]; [split; [reflexivity | constructor]|].
  simpl. split; [rewrite IHl; lia|].
  unfold is_byte in Hx.
  assert (0 <= x / 16 < 16) by (split; [apply Z.div_pos | apply Z.div_lt_upper_bound]; lia).
  pose proof (Z.mod_pos_bound x 16).
  repeat constructor; try exact IHa; unfold is_ascii, hex_digit;
    match goal with |- context [?a <? 10] => destruct (Z.ltb_spec a 10) end; lia.
Qed.

Lemma utf8_ascii (s : jsstring) : Forall is_ascii s -> utf8 s = s.
Proof.
  induction 1 as [|c r Hc _ IH]; [reflexivity|].
  cbn [utf8]. unfold is_ascii in Hc.
  destruct (Z.ltb_spec c 0x80); [|lia]. rewrite IH. reflexivity.
Qed.

Lemma hmac_sha256_hex_shape (key msg : jsstring) :
  utf8 (hmac_sha256_hex key msg) = hmac_sha256_hex key msg
  /\ length (hmac_sha256_hex key msg) = 64%nat.
Proof.
  unfold hmac_sha256_hex, SHA256.hmac.
  match goal with |- context [hex (SHA256.digest ?m)] =>
    destruct (digest_shape m) as [Hl Hb];
    destruct (hex_shape _ Hb) as [Hhl Hha]
  end.
  split; [apply utf8_ascii, Hha | rewrite Hhl, Hl; reflexivity].
Qed.

(** ** How [verifySignature] and [parseWebhook] run *)

Arguments hmac_sha256_hex : simpl never.
Arguments utf8 : simpl never.
Arguments parseInt : simpl never.
Arguments Number_toString : simpl never.

Lemma verifySignature_unconfigured this Date_now payload signature timestamp :
  truthy_secret this = None ->
  verifySignature this Date_now payload signature timestamp
  = ([], Throw secret_not_configured).
Proof. intros H. unfold verifySignature. rewrite H. reflexivity. Qed.

Lemma verifySignature_NaN this Date_now payload signature timestamp key :
  truthy_secret this = Some key ->
  parseInt timestamp = None ->
  verifySignature this Date_now payload signature timestamp
  = ([ReadClock], Throw invalid_timestamp_format).
Proof. intros H1 H2. unfold verifySignature. rewrite H1. cbn. rewrite H2. reflexivity. Qed.

Lemma verifySignature_stale this Date_now payload signature timestamp key t :
  truthy_secret this = Some key ->
  parseInt timestamp = Some t ->
  Z.abs (currentTime_of Date_now - t) > tolerance this ->
  verifySignature this Date_now payload signature timestamp
  = ([ReadClock], Throw timestamp_out_of_window).
Proof.
  intros H1 H2 H3. unfold verifySignature. rewrite H1. cbn. rewrite H2.
  destruct (Z.gtb_spec (Z.abs (currentTime_of Date_now - t)) (tolerance this)); [|lia].
  reflexivity.
Qed.

Lemma verifySignature_fresh this Date_now payload signature timestamp key t :
  truthy_secret this = Some key ->
  parseInt timestamp = Some t ->
  Z.abs (currentTime_of Date_now - t) <= tolerance this ->
  let expectedSignature := hmac_sha256_hex key (signedPayload_of timestamp payload) in
  verifySignature this Date_now payload signature timestamp
  = ([ReadClock;
      ComputeHmac key (signedPayload_of timestamp payload);
      CompareBuffers (utf8 signature) (utf8 expectedSignature)],
     comparison signature expectedSignature).
Proof.
  intros H1 H2 H3. unfold verifySignature. rewrite H1. cbn. rewrite H2.
  destruct (Z.gtb_spec (Z.abs (currentTime_of Date_now - t)) (tolerance this)); [lia|].
  reflexivity.
Qed.

Lemma comparison_same (signature : jsstring) : comparison signature signature = Ok true.
Proof.
  unfold comparison. rewrite Nat.eqb_refl, bool_decide_eq_true_2; reflexivity.
Qed.

(** A signature that is not 64 bytes long stops the comparison. *)
Lemma comparison_length (signature key msg : jsstring) :
  length (utf8 signature) <> 64%nat ->
  comparison signature (hmac_sha256_hex key msg) = Throw ERR_CRYPTO_TIMING_SAFE_EQUAL_LENGTH.
Proof.
  intros H. unfold comparison.
  destruct (hmac_sha256_hex_shape key msg) as [-> ->].
  destruct (Nat.eqb_spec (length (utf8 signature)) 64); [contradiction | reflexivity].
Qed.

(** A signature of 64 bytes is compared, and the answer is a boolean. *)
Lemma comparison_boolean (signature key msg : jsstring) :
  length (utf8 signature) = 64%nat ->
  comparison signature (hmac_sha256_hex key msg)
  = Ok (bool_decide (utf8 signature = hmac_sha256_hex key msg)).
Proof.
  intros H. unfold comparison.
  destruct (hmac_sha256_hex_shape key msg) as [-> ->].
  rewrite H. reflexivity.
Qed.

Lemma truthy_secret_Some this s :
  secret this = Some s -> s <> [] -> truthy_secret this = Some s.
Proof.
  intros H Hs. unfold truthy_secret. rewrite H. destruct s; [contradiction | reflexivity].
Qed.

Lemma truthy_secret_inv this key :
  truthy_secret this = Some key -> secret this = Some key /\ key <> [].
Proof.
  unfold truthy_secret. destruct (secret this) as [[|c r]|]; intros H; inversion H.
  split; [reflexivity | discriminate].
Qed.

(** The replay guard: with a secret and a timestamp that reads as [t], the
    call goes on to the digest exactly when [t] is within the tolerance. *)
Lemma replay_guard this Date_now payload signature timestamp key t :
  truthy_secret this = Some key ->
  parseInt timestamp = Some t ->
  (Z.abs (currentTime_of Date_now - t) <= tolerance this
   <-> outcome (verifySignature this Date_now payload signature timestamp)
       <> Throw timestamp_out_of_window).
Proof.
  intros H1 H2. split.
  - intros H3. rewrite (verifySignature_fresh _ _ _ _ _ _ _ H1 H2 H3).
    unfold outcome, comparison. cbn [snd].
    destruct (_ =? _)%nat; discriminate.
  - intros H3. destruct (Z_le_gt_dec (Z.abs (currentTime_of Date_now - t)) (tolerance this)) as [|Hgt];
      [assumption|].
    rewrite (verifySignature_stale _ _ _ _ _ _ _ H1 H2 Hgt) in H3. contradiction H3. reflexivity.
Qed.

(** [parseWebhook] without a secret: the parser and nothing else. *)
Lemma parseWebhook_unconfigured this Date_now rawPayload signature timestamp :
  truthy_secret this = None ->
  parseWebhook this Date_now rawPayload signature timestamp
  = ([ParseJson rawPayload],
     match JSON.parse rawPayload with
     | Some v => Ok v
     | None => Throw invalid_payload_json
     end).
Proof.
  intros H. unfold parseWebhook. rewrite H. cbn.
  destruct (JSON.parse rawPayload); reflexivity.
Qed.

(** The digest is computed exactly when the secret is there, the timestamp
    reads as an integer and that integer is within the tolerance. *)
Lemma digest_only_when_fresh this Date_now payload signature timestamp :
  computes_digest (trace (verifySignature this Date_now payload signature timestamp)) = true
  <-> exists key t,
        truthy_secret this = Some key
        /\ parseInt timestamp = Some t
        /\ Z.abs (currentTime_of Date_now - t) <= tolerance this.
Proof.
  destruct (truthy_secret this) as [key|] eqn:Hkey.
  - destruct (parseInt timestamp) as [t|] eqn:Hp.
    + destruct (Z_le_gt_dec (Z.abs (currentTime_of Date_now - t)) (tolerance this)) as [Hle | Hgt].
      * rewrite (verifySignature_fresh _ _ _ _ _ _ _ Hkey Hp Hle).
        split; [intros _; eauto | reflexivity].
      * rewrite (verifySignature_stale _ _ _ _ _ _ _ Hkey Hp Hgt).
        split; [discriminate|]. intros (k & t' & _ & Ht & Hle). inversion Ht. subst. lia.
    + rewrite (verifySignature_NaN _ _ _ _ _ _ Hkey Hp).
      split; [discriminate|]. intros (k & t' & _ & Ht & _). discriminate.
  - rewrite (verifySignature_unconfigured _ _ _ _ _ Hkey).
    split; [discriminate|]. intros (k & t' & Hk & _). discriminate.
Qed.

(** ** C1: signing then verifying *)

(** C1, as stated, at a timestamp far from the clock: the signature is the
    right one and the call still ends with the staleness error. *)
Lemma round_trip_stale_counterexample :
  let r := constructWebhookSignature 1700000000000 scenario_payload whsec_test (Some 1000) in
  let v := verifySignature (handler_with whsec_test) 1700000000000
             scenario_payload (sig_signature r) (sig_timestamp r) in
  outcome v = Throw timestamp_out_of_window /\ outcome v <> Ok true.
Proof. vm_compute. split; [reflexivity | discriminate]. Qed.

(** C1, amended: for every payload [p], non-empty secret [s] and timestamp
    [t], the pair [constructWebhookSignature(p, s, t)] returns verifies on a
    handler holding [s], provided the timestamp signed (which is [t], or the
    signer's clock when [t] is left out or is 0) is within the handler's
    tolerance of the verifier's clock. *)
Theorem round_trip this (Date_now_sign Date_now : Z) (p s : jsstring) (t : option Z) :
  secret this = Some s ->
  s <> [] ->
  Z.abs (currentTime_of Date_now - or_default t (currentTime_of Date_now_sign))
    <= tolerance this ->
  let r := constructWebhookSignature Date_now_sign p s t in
  outcome (verifySignature this Date_now p (sig_signature r) (sig_timestamp r)) = Ok true.
Proof.
  intros Hs Hne Hfresh r.
  pose proof (truthy_secret_Some _ _ Hs Hne) as Hkey.
  unfold r, constructWebhookSignature. cbn [sig_signature sig_timestamp].
  rewrite (verifySignature_fresh _ _ _ _ _ _ _ Hkey (parseInt_Number_toString _) Hfresh).
  apply comparison_same.
Qed.

Lemma round_trip_witness :
  let r := constructWebhookSignature 1700000000000 scenario_payload whsec_test (Some 1699999900) in
  outcome (verifySignature (handler_with whsec_test) 1700000000000
             scenario_payload (sig_signature r) (sig_timestamp r)) = Ok true.
Proof.
  apply (round_trip (handler_with whsec_test) 1700000000000 1700000000000
           scenario_payload whsec_test (Some 1699999900)).
  - reflexivity.
  - discriminate.
  - vm_compute. discriminate.
Defined.

(** ** C2: what the call answers on a signature that does not match *)

(** With a secret and a fresh timestamp, a supplied signature of 64 bytes
    gets a boolean, [true] exactly for the expected digest. *)
Lemma verifySignature_boolean this Date_now payload signature timestamp key t :
  truthy_secret this = Some key ->
  parseInt timestamp = Some t ->
  Z.abs (currentTime_of Date_now - t) <= tolerance this ->
  length (utf8 signature) = 64%nat ->
  outcome (verifySignature this Date_now payload signature timestamp)
  = Ok (bool_decide (utf8 signature = sign key timestamp payload)).
Proof.
  intros H1 H2 H3 H4. rewrite (verifySignature_fresh _ _ _ _ _ _ _ H1 H2 H3).
  apply comparison_boolean, H4.
Qed.

(** With a secret and a fresh timestamp, a supplied signature of any other
    length makes [timingSafeEqual] throw, and the call throws with it. *)
Lemma verifySignature_other_length this Date_now payload signature timestamp key t :
  truthy_secret this = Some key ->
  parseInt timestamp = Some t ->
  Z.abs (currentTime_of Date_now - t) <= tolerance this ->
  length (utf8 signature) <> 64%nat ->
  outcome (verifySignature this Date_now payload signature timestamp)
  = Throw ERR_CRYPTO_TIMING_SAFE_EQUAL_LENGTH.
Proof.
  intros H1 H2 H3 H4. rewrite (verifySignature_fresh _ _ _ _ _ _ _ H1 H2 H3).
  apply comparison_length, H4.
Qed.

(** C2 at a signature of three characters: the secret is configured, the
    timestamp is an integer and fresh, and the call does not return [false]:
    it ends with the [RangeError] of [crypto.timingSafeEqual], which is not
    a [WebhookVerificationError]. *)
Theorem short_signature_throws :
  let v := verifySignature (handler_with whsec_test) 1700000000000
             scenario_payload (js "abc") (js "1700000000") in
  outcome v = Throw ERR_CRYPTO_TIMING_SAFE_EQUAL_LENGTH
  /\ outcome v <> Ok false
  /\ instanceof_WebhookVerificationError ERR_CRYPTO_TIMING_SAFE_EQUAL_LENGTH = false.
Proof. vm_compute. repeat split; discriminate. Qed.

(** The same signature through [parseWebhook]: the error is not the one the
    method throws for a signature that does not verify. *)
Example short_signature_parseWebhook :
  outcome (parseWebhook (handler_with whsec_test) 1700000000000
             scenario_payload (js "abc") (js "1700000000"))
  = Throw ERR_CRYPTO_TIMING_SAFE_EQUAL_LENGTH.
Proof. vm_compute. reflexivity. Qed.

(** A signature of the right length that differs gets [false]. *)
Example wrong_signature_false :
  outcome (verifySignature (handler_with whsec_test) 1700000000000
             scenario_payload (replicate 64 48) (js "1700000000")) = Ok false.
Proof. vm_compute. reflexivity. Qed.

(** ** C3: no secret *)

(** C3, as stated, for [parseWebhook]: without a secret the call parses and
    returns. *)
Lemma parseWebhook_without_secret_counterexample :
  let r := parseWebhook (new_WebhookHandler None) 1700000000000
             scenario_payload [] [] in
  (exists v, outcome r = Ok v) /\ outcome r <> Throw secret_not_configured.
Proof. vm_compute. split; [eexists; reflexivity | discriminate]. Qed.

(** C3, amended: on a handler without a secret, [verifySignature] raises the
    configuration error for every payload, signature and timestamp, before
    anything else; [parseWebhook] does no verification on such a handler: it
    goes to the parser, returns the parsed value of a well-formed payload
    and raises the parse error for the others. *)
Theorem unconfigured_secret this Date_now payload signature timestamp :
  truthy_secret this = None ->
  verifySignature this Date_now payload signature timestamp
    = ([], Throw secret_not_configured)
  /\ parseWebhook this Date_now payload signature timestamp
    = ([ParseJson payload],
       match JSON.parse payload with
       | Some v => Ok v
       | None => Throw invalid_payload_json
       end).
Proof.
  intros H. split; [apply verifySignature_unconfigured | apply parseWebhook_unconfigured]; exact H.
Qed.

Lemma unconfigured_secret_witness :
  verifySignature (new_WebhookHandler None) 1700000000000 scenario_payload
      (js "abc") (js "1700000000")
    = ([], Throw secret_not_configured)
  /\ parseWebhook (new_WebhookHandler None) 1700000000000 scenario_payload
      (js "abc") (js "1700000000")
    = ([ParseJson scenario_payload],
       match JSON.parse scenario_payload with
       | Some v => Ok v
       | None => Throw invalid_payload_json
       end).
Proof.
  apply (unconfigured_secret (new_WebhookHandler None)). reflexivity.
Defined.

(** The handlers without a secret: no options, no [secret] field, or the
    empty string. *)
Lemma truthy_secret_None_cases (options : option WebhookVerificationOptions) :
  truthy_secret (new_WebhookHandler options) = None
  <-> options = None
      \/ (exists o, options = Some o /\ (opt_secret o = None \/ opt_secret o = Some [])).
Proof.
  unfold truthy_secret, new_WebhookHandler. cbn.
  destruct options as [[[[|c r]|] tol]|]; cbn; split; intros H;
    try reflexivity; try discriminate; eauto.
  - destruct H as [H | (o & Ho & [H | H])]; [discriminate| |];
      inversion Ho; subst; discriminate.
Qed.

(** ** C4: the boundary of the tolerance window *)

(** C4: with the default tolerance of 300 seconds and a correctly signed
    payload, [verifySignature] accepts a message timestamped [now - 300] and
    one timestamped [now + 300]; one timestamped [now - 301] or [now + 301]
    is rejected with the staleness error, whatever the signature, after the
    clock was read and before any digest is computed. *)
Theorem staleness_boundary this (s : jsstring) (Date_now : Z) (payload : jsstring) :
  secret this = Some s ->
  s <> [] ->
  tolerance this = 300 ->
  let now := currentTime_of Date_now in
  let verify_signed t :=
    verifySignature this Date_now payload
      (sign s (Number_toString t) payload) (Number_toString t) in
  outcome (verify_signed (now - 300)) = Ok true
  /\ outcome (verify_signed (now + 300)) = Ok true
  /\ (forall signature,
        verifySignature this Date_now payload signature (Number_toString (now - 301))
        = ([ReadClock], Throw timestamp_out_of_window))
  /\ (forall signature,
        verifySignature this Date_now payload signature (Number_toString (now + 301))
        = ([ReadClock], Throw timestamp_out_of_window)).
Proof.
  intros Hs Hne Htol now verify_signed.
  pose proof (truthy_secret_Some _ _ Hs Hne) as Hkey.
  assert (forall t, Z.abs (now - t) <= 300 -> outcome (verify_signed t) = Ok true) as Hin.
  { intros t Ht. unfold verify_signed.
    rewrite (verifySignature_fresh _ _ _ _ _ _ _ Hkey (parseInt_Number_toString t))
      by (rewrite Htol; exact Ht).
    apply comparison_same. }
  assert (forall t signature, Z.abs (now - t) > 300 ->
            verifySignature this Date_now payload signature (Number_toString t)
            = ([ReadClock], Throw timestamp_out_of_window)) as Hout.
  { intros t signature Ht.
    apply (verifySignature_stale _ _ _ _ _ _ _ Hkey (parseInt_Number_toString t)).
    rewrite Htol. exact Ht. }
  repeat split; intros; (apply Hin || apply Hout); lia.
Qed.

Lemma staleness_boundary_witness :
  let this := handler_with whsec_test in
  let verify_signed t :=
    verifySignature this 1700000000000 scenario_payload
      (sign whsec_test (Number_toString t) scenario_payload) (Number_toString t) in
  outcome (verify_signed (currentTime_of 1700000000000 - 300)) = Ok true
  /\ outcome (verify_signed (currentTime_of 1700000000000 + 300)) = Ok true
  /\ (forall signature,
        verifySignature this 1700000000000 scenario_payload signature
          (Number_toString (currentTime_of 1700000000000 - 301))
        = ([ReadClock], Throw timestamp_out_of_window))
  /\ (forall signature,
        verifySignature this 1700000000000 scenario_payload signature
          (Number_toString (currentTime_of 1700000000000 + 301))
        = ([ReadClock], Throw timestamp_out_of_window)).
Proof.
  apply (staleness_boundary (handler_with whsec_test) whsec_test 1700000000000
           scenario_payload).
  - reflexivity.
  - discriminate.
  - reflexivity.
Defined.

Example staleness_boundary_values :
  let verify t := outcome (verifySignature (handler_with whsec_test) 1700000000000
                    scenario_payload (sign whsec_test (js t) scenario_payload) (js t)) in
  verify "1699999700" = Ok true
  /\ verify "1700000300" = Ok true
  /\ verify "1699999699" = Throw timestamp_out_of_window
  /\ verify "1700000301" = Throw timestamp_out_of_window.
Proof. vm_compute. repeat split; reflexivity. Qed.

(** ** C5: the format of the timestamp header *)

(** C5, as stated, at a header that holds letters after the digits: the
    header is read as the integer at its start, the call raises no format
    failure, and with the signature of that very header it returns [true]. *)
Lemma trailing_text_counterexample :
  let timestamp := js "1700000000abc" in
  let v := verifySignature (handler_with whsec_test) 1700000000000 scenario_payload
             (sign whsec_test timestamp scenario_payload) timestamp in
  forallb is_digit timestamp = false
  /\ parseInt timestamp = Some 1700000000
  /\ outcome v = Ok true
  /\ outcome v <> Throw invalid_timestamp_format.
Proof. vm_compute. repeat split; discriminate. Qed.

(** The same for a header with a fraction: [parseInt] stops at the point. *)
Example fraction_is_read_as_integer :
  let timestamp := js "1700000000.75" in
  outcome (verifySignature (handler_with whsec_test) 1700000000000 scenario_payload
             (sign whsec_test timestamp scenario_payload) timestamp) = Ok true.
Proof. vm_compute. reflexivity. Qed.

(** What [verifySignature] can end with, with a secret. *)
Lemma verifySignature_outcomes this Date_now payload signature timestamp key :
  truthy_secret this = Some key ->
  let v := outcome (verifySignature this Date_now payload signature timestamp) in
  (parseInt timestamp = None /\ v = Throw invalid_timestamp_format)
  \/ (parseInt timestamp <> None
      /\ (v = Throw timestamp_out_of_window
          \/ v = Throw ERR_CRYPTO_TIMING_SAFE_EQUAL_LENGTH
          \/ exists b, v = Ok b)).
Proof.
  intros Hkey v. unfold v. destruct (parseInt timestamp) as [t|] eqn:Hp.
  - right. split; [discriminate|].
    destruct (Z_le_gt_dec (Z.abs (currentTime_of Date_now - t)) (tolerance this)) as [Hle | Hgt].
    + rewrite (verifySignature_fresh _ _ _ _ _ _ _ Hkey Hp Hle).
      unfold outcome, comparison. cbn [snd]. destruct (_ =? _)%nat; eauto.
    + rewrite (verifySignature_stale _ _ _ _ _ _ _ Hkey Hp Hgt). left. reflexivity.
  - left. split; [reflexivity|].
    rewrite (verifySignature_NaN _ _ _ _ _ _ Hkey Hp). reflexivity.
Qed.

(** C5, amended: on a handler with a secret, [verifySignature] raises the
    format failure for every timestamp header that [parseInt(timestamp, 10)]
    reads as [NaN], that is, a header in which no decimal digit follows the
    leading white space and the optional sign; it raises the format failure
    for no other header, and the clock is all it has read by then. *)
Theorem timestamp_format_check this s Date_now payload signature timestamp :
  secret this = Some s ->
  s <> [] ->
  (parseInt timestamp = None
   -> verifySignature this Date_now payload signature timestamp
      = ([ReadClock], Throw invalid_timestamp_format))
  /\ (outcome (verifySignature this Date_now payload signature timestamp)
        = Throw invalid_timestamp_format
      -> parseInt timestamp = None).
Proof.
  intros Hs Hne. pose proof (truthy_secret_Some _ _ Hs Hne) as Hkey. split.
  - intros Hp. apply (verifySignature_NaN _ _ _ _ _ _ Hkey Hp).
  - intros Hv.
    destruct (verifySignature_outcomes this Date_now payload signature timestamp _ Hkey)
      as [[Hp _] | [_ [H | [H | [b H]]]]]; [exact Hp | | |];
      rewrite H in Hv; discriminate.
Qed.

Lemma timestamp_format_check_witness :
  (parseInt (js "soon") = None
   -> verifySignature (handler_with whsec_test) 1700000000000 scenario_payload
        (js "abc") (js "soon")
      = ([ReadClock], Throw invalid_timestamp_format))
  /\ (outcome (verifySignature (handler_with whsec_test) 1700000000000 scenario_payload
                 (js "abc") (js "soon"))
        = Throw invalid_timestamp_format
      -> parseInt (js "soon") = None).
Proof.
  apply (timestamp_format_check (handler_with whsec_test) whsec_test 1700000000000
           scenario_payload (js "abc") (js "soon")).
  - reflexivity.
  - discriminate.
Defined.

(** [parseInt] reads [NaN] exactly when no digit follows the white space
    and the sign. *)
Lemma parseInt_NaN (s : jsstring) :
  parseInt s = None
  <-> match skip_StrWhiteSpace s with
      | c :: r =>
        if (c =? 45) || (c =? 43)
        then match r with d :: _ => is_digit d = false | [] => True end
        else is_digit c = false
      | [] => True
      end.
Proof.
  unfold parseInt. destruct (skip_StrWhiteSpace s) as [|c r]; [cbn; tauto|].
  destruct (c =? 45) eqn:E1; [|destruct (c =? 43) eqn:E2]; cbn [orb].
  1,2: destruct r as [|d r']; cbn [digit_prefix]; [tauto|];
       destruct (is_digit d); split; intros H; try reflexivity; discriminate.
  cbn [digit_prefix]. destruct (is_digit c); split; intros H; try reflexivity; discriminate.
Qed.

(** ** C6: verification comes before parsing *)

(** [parseWebhook] with a secret, by the way [verifySignature] ended. *)
Lemma parseWebhook_configured this Date_now rawPayload signature timestamp key :
  truthy_secret this = Some key ->
  parseWebhook this Date_now rawPayload signature timestamp
  = match verifySignature this Date_now rawPayload signature timestamp with
    | (t, Ok true) =>
      (t ++ [ParseJson rawPayload],
       match JSON.parse rawPayload with
       | Some v => Ok v
       | None => Throw invalid_payload_json
       end)
    | (t, Ok false) => (t, Throw invalid_signature)
    | (t, Throw e) => (t, Throw e)
    end.
Proof.
  intros Hkey. unfold parseWebhook. rewrite Hkey.
  destruct (verifySignature this Date_now rawPayload signature timestamp) as [t [[|]|e]]; cbn.
  - rewrite app_nil_r. destruct (JSON.parse rawPayload); cbn; rewrite ?app_nil_r; reflexivity.
  - rewrite app_nil_r. reflexivity.
  - reflexivity.
Qed.

(** [verifySignature] never calls the parser. *)
Lemma verifySignature_never_parses this Date_now payload signature timestamp :
  parses_json (trace (verifySignature this Date_now payload signature timestamp)) = false.
Proof.
  destruct (truthy_secret this) as [key|] eqn:Hkey;
    [|rewrite (verifySignature_unconfigured _ _ _ _ _ Hkey); reflexivity].
  destruct (parseInt timestamp) as [t|] eqn:Hp;
    [|rewrite (verifySignature_NaN _ _ _ _ _ _ Hkey Hp); reflexivity].
  destruct (Z_le_gt_dec (Z.abs (currentTime_of Date_now - t)) (tolerance this)) as [Hle | Hgt].
  - rewrite (verifySignature_fresh _ _ _ _ _ _ _ Hkey Hp Hle). reflexivity.
  - rewrite (verifySignature_stale _ _ _ _ _ _ _ Hkey Hp Hgt). reflexivity.
Qed.

(** No error of [verifySignature] is the parse error. *)
Lemma verifySignature_error_not_parse this Date_now payload signature timestamp e :
  outcome (verifySignature this Date_now payload signature timestamp) = Throw e ->
  e <> invalid_payload_json.
Proof.
  intros Hv. destruct (truthy_secret this) as [key|] eqn:Hkey.
  - destruct (verifySignature_outcomes this Date_now payload signature timestamp _ Hkey)
      as [[_ H] | [_ [H | [H | [b H]]]]]; rewrite H in Hv; inversion Hv; discriminate.
  - rewrite (verifySignature_unconfigured _ _ _ _ _ Hkey) in Hv. inversion Hv. discriminate.
Qed.

(** The order of the two steps.  With a secret, a signature that does not
    verify makes the call fail in the verification step, with an error that
    is not the parse error and without a call of the parser, whether the
    payload is well-formed or not; the parse error is raised exactly when
    verification passed and the payload is not well-formed; what
    [parseWebhook] does starts with what [verifySignature] does.  The error
    of the verification step is whatever [verifySignature] threw: its kind
    is not settled here. *)
Lemma verification_before_parsing this s Date_now rawPayload signature timestamp :
  secret this = Some s ->
  s <> [] ->
  let v := verifySignature this Date_now rawPayload signature timestamp in
  let r := parseWebhook this Date_now rawPayload signature timestamp in
  (outcome v <> Ok true ->
     exists e, outcome r = Throw e
       /\ e <> invalid_payload_json
       /\ (outcome v = Throw e \/ (outcome v = Ok false /\ e = invalid_signature))
       /\ parses_json (trace r) = false)
  /\ (outcome r = Throw invalid_payload_json
      <-> outcome v = Ok true /\ JSON.parse rawPayload = None)
  /\ (exists rest, trace r = trace v ++ rest).
Proof.
  intros Hs Hne v r. pose proof (truthy_secret_Some _ _ Hs Hne) as Hkey.
  pose proof (parseWebhook_configured this Date_now rawPayload signature timestamp _ Hkey) as Hr.
  pose proof (verifySignature_never_parses this Date_now rawPayload signature timestamp) as Hnp.
  pose proof (verifySignature_error_not_parse this Date_now rawPayload signature timestamp) as Hep.
  fold v in Hr, Hnp, Hep. fold r in Hr. clearbody v r. subst r.
  destruct v as [t [[|]|e]]; unfold outcome, trace in *; cbn [fst snd] in *.
  - split; [intros H; contradiction H; reflexivity|]. split.
    + destruct (JSON.parse rawPayload); split; intros H; try discriminate; auto.
      destruct H as [_ H]. discriminate.
    + eexists. reflexivity.
  - split; [|split].
    + intros _. exists invalid_signature. repeat split; try discriminate; auto.
    + split; [discriminate | intros [H _]; discriminate].
    + exists []. rewrite app_nil_r. reflexivity.
  - split; [|split].
    + intros _. exists e. repeat split; auto.
    + split; [|intros [H _]; discriminate].
      intros H. inversion H. subst e. exfalso. apply (Hep _ eq_refl). reflexivity.
    + exists []. rewrite app_nil_r. reflexivity.
Qed.

Lemma verification_before_parsing_witness :
  let v := verifySignature (handler_with whsec_test) 1700000000000
             (js "{not json") (replicate 64 48) (js "1700000000") in
  let r := parseWebhook (handler_with whsec_test) 1700000000000
             (js "{not json") (replicate 64 48) (js "1700000000") in
  (outcome v <> Ok true ->
     exists e, outcome r = Throw e
       /\ e <> invalid_payload_json
       /\ (outcome v = Throw e \/ (outcome v = Ok false /\ e = invalid_signature))
       /\ parses_json (trace r) = false)
  /\ (outcome r = Throw invalid_payload_json
      <-> outcome v = Ok true /\ JSON.parse (js "{not json") = None)
  /\ (exists rest, trace r = trace v ++ rest).
Proof.
  apply (verification_before_parsing (handler_with whsec_test) whsec_test 1700000000000
           (js "{not json") (replicate 64 48) (js "1700000000")).
  - reflexivity.
  - discriminate.
Defined.

(** With a secret and a fresh timestamp, a signature that is not 64 bytes
    long ends [parseWebhook] with the [RangeError] of the comparison,
    whatever the payload is. *)
Lemma parseWebhook_other_length this Date_now rawPayload signature timestamp key t :
  truthy_secret this = Some key ->
  parseInt timestamp = Some t ->
  Z.abs (currentTime_of Date_now - t) <= tolerance this ->
  length (utf8 signature) <> 64%nat ->
  outcome (parseWebhook this Date_now rawPayload signature timestamp)
  = Throw ERR_CRYPTO_TIMING_SAFE_EQUAL_LENGTH.
Proof.
  intros Hkey Hp Hfresh Hlen.
  pose proof (verifySignature_other_length this Date_now rawPayload signature timestamp
                key t Hkey Hp Hfresh Hlen) as Hv.
  rewrite (parseWebhook_configured _ _ _ _ _ _ Hkey).
  destruct (verifySignature this Date_now rawPayload signature timestamp) as [tr o].
  cbn in Hv. subst o. reflexivity.
Qed.

(** C6 at a payload that is not JSON with a signature of three characters:
    a secret is configured, the timestamp is fresh and the signature does
    not verify.  [parseWebhook] fails before the parser is called, as the
    claim says, but the error is the [RangeError] of
    [crypto.timingSafeEqual], which is neither of the two kinds: it is not
    a [WebhookVerificationError].  The middleware of the same file, which
    tells the kinds apart with [instanceof], answers it 400 as an invalid
    payload and not 401 as a failed verification; the same payload with a
    wrong signature of 64 characters gets the verification error. *)
Theorem malformed_payload_short_signature :
  let this := handler_with whsec_test in
  let v := verifySignature this 1700000000000 (js "{not json") (js "abc")
             (js "1700000000") in
  let r := parseWebhook this 1700000000000 (js "{not json") (js "abc")
             (js "1700000000") in
  JSON.parse (js "{not json") = None
  /\ outcome v <> Ok true
  /\ outcome r = Throw ERR_CRYPTO_TIMING_SAFE_EQUAL_LENGTH
  /\ instanceof_WebhookVerificationError ERR_CRYPTO_TIMING_SAFE_EQUAL_LENGTH = false
  /\ parses_json (trace r) = false
  /\ reply (webhookMiddleware (options_with whsec_test) 1700000000000
              {| body := BodyBuffer (utf8 (js "{not json"));
                 x_singlekey_signature := Some (js "abc");
                 x_singlekey_timestamp := Some (js "1700000000") |}
              next_logging [])
     = Some (400, "Invalid webhook payload"%string)
  /\ outcome (parseWebhook this 1700000000000 (js "{not json") (replicate 64 48)
                (js "1700000000"))
     = Throw invalid_signature
  /\ instanceof_WebhookVerificationError invalid_signature = true.
Proof.
  vm_compute.
  split; [reflexivity|]. split; [discriminate|]. split; [reflexivity|].
  split; [reflexivity|]. split; [reflexivity|]. split; [reflexivity|].
  split; reflexivity.
Qed.

(** Malformed JSON with a wrong signature and with the right one. *)
Example malformed_payload_errors :
  outcome (parseWebhook (handler_with whsec_test) 1700000000000
             (js "{not json") (replicate 64 48) (js "1700000000"))
    = Throw invalid_signature
  /\ outcome (parseWebhook (handler_with whsec_test) 1700000000000
             (js "{not json") (sign whsec_test (js "1700000000") (js "{not json"))
             (js "1700000000"))
    = Throw invalid_payload_json
  /\ invalid_signature <> invalid_payload_json
  /\ instanceof_WebhookVerificationError invalid_payload_json = true.
Proof. vm_compute. repeat split; try reflexivity; discriminate. Qed.

(** ** C7: tags without a handler *)

Lemma on_undefined {W} (handlers : object W) webhook (w : W) :
  Get handlers (event webhook) = VUndefined ->
  on handlers webhook w = (w, Fulfilled).
Proof. intros H. unfold on. rewrite H. reflexivity. Qed.

(** None of the six known tags is a name of [Object.prototype]. *)
Lemma known_tags_not_inherited {W} (tag : jsstring) :
  tag ∈ WebhookEventType -> (@Object_prototype W) !! tag = None.
Proof.
  unfold WebhookEventType. intros H.
  repeat (apply elem_of_cons in H; destruct H as [-> | H]; [vm_compute; reflexivity|]).
  apply elem_of_nil in H. contradiction.
Qed.

(** C7 at the tag [__proto__]: the payload decodes, the tag is not one of
    the six and the map has no handler for it, and the dispatch function
    does not return normally: the lookup [handlers[webhook.event]] finds the
    prototype object, which passes [if (handler)], and the call of it
    fails.  The promise is rejected with a [TypeError]. *)
Theorem inherited_name_dispatch_rejects :
  exists v wh,
    outcome (parseWebhook (handler_with whsec_test) 1700000000000 proto_tag_payload
               (sign whsec_test (js "1700000000") proto_tag_payload) (js "1700000000"))
      = Ok v
    /\ as_WebhookPayload v = Some wh
    /\ (event wh ∉ WebhookEventType)
    /\ own two_handlers !! event wh = None
    /\ on two_handlers wh [] = ([], Rejected (TypeError "handler is not a function"))
    /\ on two_handlers wh [] <> ([], Fulfilled).
Proof.
  eexists. eexists. split; [vm_compute; reflexivity|].
  split; [vm_compute; reflexivity|].
  cbn [event]. split; [|split; [|split]].
  - unfold WebhookEventType. intros H.
    repeat (apply elem_of_cons in H; destruct H as [H | H]; [vm_compute in H; discriminate|]).
    apply elem_of_nil in H. contradiction.
  - vm_compute. reflexivity.
  - vm_compute. reflexivity.
  - vm_compute. discriminate.
Qed.

(** An inherited function is called as if it were a handler. *)
Example inherited_function_is_called :
  Get two_handlers (js "constructor") <> VUndefined
  /\ Get two_handlers (js "valueOf") <> VUndefined
  /\ snd (on two_handlers (event_tagged (js "valueOf")) [])
     = Rejected (TypeError "Cannot convert undefined or null to object").
Proof. vm_compute. repeat split; discriminate. Qed.

(** Where the dispatch is the no-op it is meant to be.  A well-formed JSON
    payload decodes whatever its event tag is, one of the six known tags or
    not, into the parsed value, seen as an event with that tag and its data
    bag; and for every decoded event whose tag names no property of the
    handler map, neither a registered handler nor a name the map inherits
    from its prototype, the dispatch function calls nothing and returns
    normally.  In a map written as an object literal such a tag is one
    without a handler that is a known tag or, more generally, not a name of
    [Object.prototype]. *)
Lemma forward_compatibility {W} this Date_now rawPayload signature timestamp
  (v : json) (webhook : WebhookPayload) (handlers : object W) (w : W) :
  JSON.parse rawPayload = Some v ->
  as_WebhookPayload v = Some webhook ->
  truthy_secret this = None
    \/ outcome (verifySignature this Date_now rawPayload signature timestamp) = Ok true ->
  Get handlers (event webhook) = VUndefined ->
  outcome (parseWebhook this Date_now rawPayload signature timestamp) = Ok v
  /\ on handlers webhook w = (w, Fulfilled)
  /\ (forall (props : gmap (list Z) (jsvalue W)) (other : WebhookPayload),
        props !! event other = None ->
        event other ∈ WebhookEventType \/ (@Object_prototype W) !! event other = None ->
        on (object_literal props) other w = (w, Fulfilled)).
Proof.
  intros Hparse _ Hverified Hget. split; [|split].
  - destruct (truthy_secret this) as [key|] eqn:Hkey.
    + destruct Hverified as [? | Hv]; [discriminate|].
      rewrite (parseWebhook_configured _ _ _ _ _ _ Hkey).
      destruct (verifySignature this Date_now rawPayload signature timestamp) as [t [[|]|e]];
        cbn in Hv; try discriminate.
      cbn. rewrite Hparse. reflexivity.
    + rewrite (parseWebhook_unconfigured _ _ _ _ _ Hkey).
      cbn. rewrite Hparse. reflexivity.
  - apply on_undefined, Hget.
  - intros props other Hnone Htag. apply on_undefined.
    unfold Get, object_literal. cbn [own inherited].
    rewrite Hnone. destruct Htag as [Hknown | ->]; [|reflexivity].
    rewrite (known_tags_not_inherited _ Hknown). reflexivity.
Qed.

Lemma forward_compatibility_witness :
  exists v webhook,
    event webhook = js "new.unknown.tag"
    /\ outcome (parseWebhook (handler_with whsec_test) 1700000000000 unknown_tag_payload
                  (sign whsec_test (js "1700000000") unknown_tag_payload) (js "1700000000"))
       = Ok v
    /\ on two_handlers webhook [] = ([], Fulfilled)
    /\ (forall (props : gmap (list Z) (jsvalue (list string))) (other : WebhookPayload),
          props !! event other = None ->
          event other ∈ WebhookEventType
            \/ (@Object_prototype (list string)) !! event other = None ->
          on (object_literal props) other [] = ([], Fulfilled)).
Proof.
  eexists. eexists. split; cycle 1.
  - apply (forward_compatibility (handler_with whsec_test) 1700000000000 unknown_tag_payload
             (sign whsec_test (js "1700000000") unknown_tag_payload) (js "1700000000")).
    + vm_compute. reflexivity.
    + vm_compute. reflexivity.
    + right. vm_compute. reflexivity.
    + vm_compute. reflexivity.
  - vm_compute. reflexivity.
Defined.

(** Handlers for completed and failed screenings only: an [invite.sent]
    event runs neither. *)
Example dispatch_exactness :
  on two_handlers (event_tagged (js "invite.sent")) [] = ([], Fulfilled).
Proof. vm_compute. reflexivity. Qed.

(** ** C8: the registered handler, and its failure *)

(** C8: when the tag of the event has a registered handler, what the
    dispatch function does is what that handler does on the data of the
    event, and nothing more; the promise settles as the awaited call ends:
    fulfilled when the handler returns, rejected with the handler's own
    error when it throws or rejects. *)
Theorem handler_failure_propagation {W} (handlers : object W) (webhook : WebhookPayload)
  (handler : callable W) (w : W) :
  own handlers !! event webhook = Some (VFunction handler) ->
  on handlers webhook w
    = (fst (handler (data webhook) w), settle (snd (handler (data webhook) w)))
  /\ (forall e, snd (handler (data webhook) w) = Abrupt e ->
        snd (on handlers webhook w) = Rejected e)
  /\ (snd (handler (data webhook) w) = Normal ->
        snd (on handlers webhook w) = Fulfilled).
Proof.
  intros Hown.
  assert (on handlers webhook w
          = (fst (handler (data webhook) w), settle (snd (handler (data webhook) w)))) as Hon.
  { unfold on, Get. rewrite Hown. destruct (handler (data webhook) w). reflexivity. }
  rewrite Hon. cbn [snd]. repeat split; intros; rewrite H; reflexivity.
Qed.

Lemma handler_failure_propagation_witness :
  let webhook := event_tagged (js "screening.completed") in
  let handler := failing "completed" database_down in
  on failing_handlers webhook []
    = (fst (handler (data webhook) []), settle (snd (handler (data webhook) [])))
  /\ (forall e, snd (handler (data webhook) []) = Abrupt e ->
        snd (on failing_handlers webhook []) = Rejected e)
  /\ (snd (handler (data webhook) []) = Normal ->
        snd (on failing_handlers webhook []) = Fulfilled).
Proof.
  apply (handler_failure_propagation failing_handlers
           (event_tagged (js "screening.completed"))
           (failing "completed" database_down) []).
  vm_compute. reflexivity.
Defined.

(** The failing handler for completed screenings ran once, the other
    handler did not run, and the caller gets the handler's error. *)
Example failure_reaches_the_caller :
  on failing_handlers (event_tagged (js "screening.completed")) []
  = (["completed"%string], Rejected database_down).
Proof. vm_compute. reflexivity. Qed.

Example one_handler_runs :
  on two_handlers (event_tagged (js "screening.failed")) ["earlier"%string]
  = (["earlier"%string; "failed"%string], Fulfilled).
Proof. vm_compute. reflexivity. Qed.

(** ** C9: the concrete scenario *)

(** C9: for the payload of the scenario, the secret [whsec_test] and the
    timestamp header [1700000000], the hex HMAC-SHA256 of
    [1700000000.] followed by the payload makes [verifySignature] return
    [true] at a clock of 1700000000 seconds, and [parseWebhook] then gives
    an event whose [event] is [screening.failed] and whose [data.errors] is
    the array of the one string [tenant_timeout]. *)
Theorem concrete_scenario :
  let this := handler_with whsec_test in
  let signature := hmac_sha256_hex whsec_test (js "1700000000." ++ scenario_payload) in
  signature = js "863ce4129f2ee8e1fd2ae4142854a6af5b6f981c68e6404f9e73c4e71176d8dc"
  /\ outcome (verifySignature this 1700000000000 scenario_payload signature
                (js "1700000000")) = Ok true
  /\ exists v webhook,
       outcome (parseWebhook this 1700000000000 scenario_payload signature
                  (js "1700000000")) = Ok v
       /\ as_WebhookPayload v = Some webhook
       /\ event webhook = js "screening.failed"
       /\ member (js "errors") (data webhook)
          = Some (JArray [JString (js "tenant_timeout")]).
Proof.
  split; [vm_compute; reflexivity|].
  split; [vm_compute; reflexivity|].
  eexists. eexists.
  split; [vm_compute; reflexivity|].
  split; [vm_compute; reflexivity|].
  split; vm_compute; reflexivity.
Qed.

(** The same at any millisecond of that second. *)
Example concrete_scenario_any_millisecond (ms : Z) :
  0 <= ms < 1000 ->
  outcome (verifySignature (handler_with whsec_test) (1700000000000 + ms) scenario_payload
             (sign whsec_test (js "1700000000") scenario_payload) (js "1700000000"))
  = Ok true.
Proof.
  intros Hms.
  assert (truthy_secret (handler_with whsec_test) = Some whsec_test) as Hkey by reflexivity.
  assert (parseInt (js "1700000000") = Some 1700000000) as Hp by reflexivity.
  rewrite (verifySignature_fresh _ _ _ _ _ _ _ Hkey Hp).
  - apply comparison_same.
  - unfold currentTime_of.
    replace ((1700000000000 + ms) / 1000) with 1700000000.
    + cbn. lia.
    + apply Z.div_unique with (r := ms); lia.
Qed.

(** ** C10: a tolerance of zero *)

(** The default applies when the tolerance is left out, with or without
    options. *)
Example default_tolerance (s : option jsstring) :
  tolerance (new_WebhookHandler None) = 300
  /\ tolerance (new_WebhookHandler (Some {| opt_secret := s; opt_tolerance := None |})) = 300
  /\ tolerance (new_WebhookHandler (Some {| opt_secret := s; opt_tolerance := Some 60 |})) = 60.
Proof. repeat split; reflexivity. Qed.

(** C10: a handler constructed with a tolerance of 0 has the tolerance 300;
    no options give the constructor a tolerance of 0; and the handler made
    with 0 accepts a correctly signed message timestamped up to 300 seconds
    from now. *)
Theorem zero_tolerance_is_default (s : jsstring) (Date_now t : Z) (payload : jsstring) :
  let this := new_WebhookHandler (Some {| opt_secret := Some s; opt_tolerance := Some 0 |}) in
  s <> [] ->
  Z.abs (currentTime_of Date_now - t) <= 300 ->
  tolerance this = 300
  /\ (forall options, tolerance (new_WebhookHandler options) <> 0)
  /\ outcome (verifySignature this Date_now payload
                (sign s (Number_toString t) payload) (Number_toString t)) = Ok true.
Proof.
  intros this Hne Ht. split; [reflexivity|]. split.
  - intros options. unfold new_WebhookHandler, or_default. cbn [tolerance].
    destruct (options ≫= opt_tolerance) as [x|]; [|discriminate].
    destruct (Z.eqb_spec x 0); [discriminate | assumption].
  - assert (truthy_secret this = Some s) as Hkey
      by (apply truthy_secret_Some; [reflexivity | exact Hne]).
    rewrite (verifySignature_fresh _ _ _ _ _ _ _ Hkey (parseInt_Number_toString t) Ht).
    apply comparison_same.
Qed.

Lemma zero_tolerance_is_default_witness :
  let this := new_WebhookHandler
                (Some {| opt_secret := Some whsec_test; opt_tolerance := Some 0 |}) in
  tolerance this = 300
  /\ (forall options, tolerance (new_WebhookHandler options) <> 0)
  /\ outcome (verifySignature this 1700000000000 scenario_payload
                (sign whsec_test (Number_toString 1700000300) scenario_payload)
                (Number_toString 1700000300)) = Ok true.
Proof.
  apply (zero_tolerance_is_default whsec_test 1700000000000 1700000300 scenario_payload).
  - discriminate.
  - vm_compute. discriminate.
Defined.

(** With a tolerance of 0 really in force, only the very second would pass;
    the handler made with 0 accepts a message 300 seconds old. *)
Example zero_tolerance_accepts_300 :
  outcome (verifySignature
             (new_WebhookHandler (Some {| opt_secret := Some whsec_test; opt_tolerance := Some 0 |}))
             1700000000000 scenario_payload
             (sign whsec_test (js "1699999700") scenario_payload) (js "1699999700"))
  = Ok true.
Proof. vm_compute. reflexivity. Qed.

(** * More of the SDK *)

(** ** Decoding what was encoded *)

Lemma utf8_cons (c : Z) (r : jsstring) :
  utf8 (c :: r)
  = if c <? 0x80 then c :: utf8 r
    else if c <? 0x800 then 0xC0 + c / 64 :: 0x80 + c mod 64 :: utf8 r
    else if is_high_surrogate c then
      match r with
      | d :: r' =>
        if is_low_surrogate d then
          let cp := 0x10000 + (c - 0xD800) * 0x400 + (d - 0xDC00) in
          0xF0 + cp / 0x40000 :: 0x80 + (cp / 0x1000) mod 64
            :: 0x80 + (cp / 64) mod 64 :: 0x80 + cp mod 64 :: utf8 r'
        else replacement ++ utf8 r
      | [] => replacement
      end
    else if is_low_surrogate c then replacement ++ utf8 r
    else 0xE0 + c / 0x1000 :: 0x80 + (c / 64) mod 64 :: 0x80 + c mod 64 :: utf8 r.
Proof. reflexivity. Qed.

Ltac settle_tests :=
  repeat match goal with
  | |- context [if ?b then _ else _] =>
    let H := fresh in
    first [ assert (b = true) as H by lia; rewrite H; clear H
          | assert (b = false) as H by lia; rewrite H; clear H
          | match b with (_ =? _) => destruct b eqn:H end ]
  end.

Lemma decode_two (c : Z) (rest : bytes) :
  0x80 <= c < 0x800 ->
  utf8_decode (0xC0 + c / 64 :: 0x80 + c mod 64 :: rest) = c :: utf8_decode rest.
Proof.
  intros Hc. pose proof (Z.div_mod c 64 ltac:(lia)). pose proof (Z.mod_pos_bound c 64 ltac:(lia)).
  set (q := c / 64) in *. set (m := c mod 64) in *.
  cbn [utf8_decode]. unfold is_continuation. settle_tests. f_equal. lia.
Qed.

Lemma decode_three (c : Z) (rest : bytes) :
  0x800 <= c < 0x10000 -> ~ 0xD800 <= c < 0xE000 ->
  utf8_decode (0xE0 + c / 0x1000 :: 0x80 + (c / 64) mod 64 :: 0x80 + c mod 64 :: rest)
  = c :: utf8_decode rest.
Proof.
  intros Hc Hs.
  pose proof (Z.div_mod c 64 ltac:(lia)). pose proof (Z.mod_pos_bound c 64 ltac:(lia)).
  pose proof (Z.div_mod (c / 64) 64 ltac:(lia)).
  pose proof (Z.mod_pos_bound (c / 64) 64 ltac:(lia)).
  replace (c / 0x1000) with (c / 64 / 64) by (rewrite Z.div_div by lia; reflexivity).
  set (q1 := c / 64) in *. set (m1 := c mod 64) in *.
  set (q2 := q1 / 64) in *. set (m2 := q1 mod 64) in *.
  cbn [utf8_decode]. unfold is_continuation. settle_tests; f_equal; lia.
Qed.

Lemma decode_four (c d : Z) (rest : bytes) :
  0xD800 <= c < 0xDC00 -> 0xDC00 <= d < 0xE000 ->
  let cp := 0x10000 + (c - 0xD800) * 0x400 + (d - 0xDC00) in
  utf8_decode (0xF0 + cp / 0x40000 :: 0x80 + (cp / 0x1000) mod 64
                 :: 0x80 + (cp / 64) mod 64 :: 0x80 + cp mod 64 :: rest)
  = c :: d :: utf8_decode rest.
Proof.
  intros Hc Hd cp.
  assert (0x10000 <= cp < 0x110000) as Hcp by (unfold cp; lia).
  pose proof (Z.div_mod cp 64 ltac:(lia)). pose proof (Z.mod_pos_bound cp 64 ltac:(lia)).
  pose proof (Z.div_mod (cp / 64) 64 ltac:(lia)).
  pose proof (Z.mod_pos_bound (cp / 64) 64 ltac:(lia)).
  pose proof (Z.div_mod (cp / 64 / 64) 64 ltac:(lia)).
  pose proof (Z.mod_pos_bound (cp / 64 / 64) 64 ltac:(lia)).
  replace (cp / 0x40000) with (cp / 64 / 64 / 64) by (rewrite !Z.div_div by lia; reflexivity).
  replace (cp / 0x1000) with (cp / 64 / 64) by (rewrite Z.div_div by lia; reflexivity).
  set (q1 := cp / 64) in *. set (m1 := cp mod 64) in *.
  set (q2 := q1 / 64) in *. set (m2 := q1 mod 64) in *.
  set (q3 := q2 / 64) in *. set (m3 := q2 mod 64) in *.
  cbn [utf8_decode]. unfold is_continuation.
  settle_tests; cbv zeta;
    replace ((((0xF0 + q3 - 0xF0) * 64 + (0x80 + m3 - 0x80)) * 64 + (0x80 + m2 - 0x80)) * 64
             + (0x80 + m1 - 0x80) - 0x10000)
      with ((c - 0xD800) * 0x400 + (d - 0xDC00)) by (unfold cp in *; lia);
    rewrite <- (Z.div_unique ((c - 0xD800) * 0x400 + (d - 0xDC00)) 0x400
                  (c - 0xD800) (d - 0xDC00)) by lia;
    rewrite <- (Z.mod_unique ((c - 0xD800) * 0x400 + (d - 0xDC00)) 0x400
                  (c - 0xD800) (d - 0xDC00)) by lia;
    (f_equal; [lia | f_equal; lia]).
Qed.

(** Decoding the UTF-8 encoding of a well-formed string gives the string. *)
Lemma utf8_decode_utf8 (s : jsstring) : well_formed s = true -> utf8_decode (utf8 s) = s.
Proof.
  remember (length s) as n eqn:Hn. revert s Hn.
  induction n as [n IH] using lt_wf_ind. intros s Hn Hwf.
  destruct s as [|c r]; [reflexivity|].
  rewrite utf8_cons. cbn [well_formed] in Hwf.
  unfold is_high_surrogate, is_low_surrogate in *.
  destruct ((0xD800 <=? c) && (c <? 0xDC00)) eqn:Hhigh.
  - destruct r as [|d r']; [discriminate|].
    apply andb_prop in Hwf. destruct Hwf as [Hlow Hwf].
    assert ((c <? 0x80) = false) as -> by lia.
    assert ((c <? 0x800) = false) as -> by lia.
    rewrite Hlow. cbv zeta.
    rewrite decode_four by lia.
    rewrite (IH (length r')); [reflexivity | cbn in Hn; lia | reflexivity | exact Hwf].
  - apply andb_prop in Hwf. destruct Hwf as [Hwf Hr].
    assert (utf8_decode (utf8 r) = r) as IHr
      by (apply (IH (length r)); [cbn in Hn; lia | reflexivity | exact Hr]).
    destruct (Z.ltb_spec c 0x80).
    + cbn [utf8_decode]. assert ((c <? 0x80) = true) as -> by lia. rewrite IHr. reflexivity.
    + destruct (Z.ltb_spec c 0x800).
      * rewrite decode_two by lia. rewrite IHr. reflexivity.
      * assert ((0xDC00 <=? c) && (c <? 0xE000) = false) as -> by lia.
        rewrite decode_three by lia. rewrite IHr. reflexivity.
Qed.

(** ** When [verifySignature] and [parseWebhook] return *)

Lemma comparison_true_iff (signature key msg : jsstring) :
  comparison signature (hmac_sha256_hex key msg) = Ok true
  <-> utf8 signature = hmac_sha256_hex key msg.
Proof.
  unfold comparison. destruct (hmac_sha256_hex_shape key msg) as [Hu Hl]. rewrite Hu.
  split.
  - destruct (_ =? _)%nat; [|discriminate]. intros H. inversion H as [Hb].
    apply bool_decide_eq_true_1 in Hb. exact Hb.
  - intros ->. rewrite Nat.eqb_refl, bool_decide_eq_true_2; reflexivity.
Qed.

(** What a [true] from [verifySignature] tells. *)
Lemma verifySignature_true_inv this Date_now payload signature timestamp :
  outcome (verifySignature this Date_now payload signature timestamp) = Ok true ->
  exists key t,
    truthy_secret this = Some key
    /\ parseInt timestamp = Some t
    /\ Z.abs (currentTime_of Date_now - t) <= tolerance this
    /\ utf8 signature = sign key timestamp payload.
Proof.
  intros Hv. destruct (truthy_secret this) as [key|] eqn:Hkey;
    [|rewrite (verifySignature_unconfigured _ _ _ _ _ Hkey) in Hv; discriminate].
  destruct (parseInt timestamp) as [t|] eqn:Hp;
    [|rewrite (verifySignature_NaN _ _ _ _ _ _ Hkey Hp) in Hv; discriminate].
  destruct (Z_le_gt_dec (Z.abs (currentTime_of Date_now - t)) (tolerance this)) as [Hle | Hgt];
    [|rewrite (verifySignature_stale _ _ _ _ _ _ _ Hkey Hp Hgt) in Hv; discriminate].
  rewrite (verifySignature_fresh _ _ _ _ _ _ _ Hkey Hp Hle) in Hv.
  exists key, t. repeat split; try assumption.
  apply comparison_true_iff, Hv.
Qed.

(** X1: [verifySignature] returns [true] exactly when a non-empty secret is
    configured, the timestamp header starts with an integer that is within
    the tolerance of the clock, and the supplied signature encodes to the
    hex HMAC-SHA256 of the header, a point and the payload under the
    secret. *)
Theorem verifySignature_true_iff this Date_now payload signature timestamp :
  outcome (verifySignature this Date_now payload signature timestamp) = Ok true
  <-> exists key t,
        truthy_secret this = Some key
        /\ parseInt timestamp = Some t
        /\ Z.abs (currentTime_of Date_now - t) <= tolerance this
        /\ utf8 signature = sign key timestamp payload.
Proof.
  split.
  - apply verifySignature_true_inv.
  - intros (key & t & Hkey & Hp & Hle & Hsig).
    rewrite (verifySignature_fresh _ _ _ _ _ _ _ Hkey Hp Hle).
    apply comparison_true_iff, Hsig.
Qed.

(** What a value returned by [parseWebhook] tells. *)
Lemma parseWebhook_Ok_inv this Date_now rawPayload signature timestamp (v : json) :
  outcome (parseWebhook this Date_now rawPayload signature timestamp) = Ok v ->
  JSON.parse rawPayload = Some v
  /\ (truthy_secret this = None
      \/ outcome (verifySignature this Date_now rawPayload signature timestamp) = Ok true).
Proof.
  destruct (truthy_secret this) as [key|] eqn:Hkey.
  - rewrite (parseWebhook_configured _ _ _ _ _ _ Hkey).
    destruct (verifySignature this Date_now rawPayload signature timestamp) as [t [[|]|e]];
      unfold outcome; cbn [snd]; try discriminate.
    destruct (JSON.parse rawPayload) as [v'|]; [|discriminate].
    intros H. inversion H. auto.
  - rewrite (parseWebhook_unconfigured _ _ _ _ _ Hkey). unfold outcome; cbn [snd].
    destruct (JSON.parse rawPayload) as [v'|]; [|discriminate].
    intros H. inversion H. auto.
Qed.

(** X2: [parseWebhook] returns a value exactly when the payload parses to
    that value and either no secret is configured or [verifySignature]
    returns [true]: with a secret, nothing is returned for a request that
    did not verify. *)
Theorem parseWebhook_returns_iff this Date_now rawPayload signature timestamp (v : json) :
  outcome (parseWebhook this Date_now rawPayload signature timestamp) = Ok v
  <-> JSON.parse rawPayload = Some v
      /\ (truthy_secret this = None
          \/ outcome (verifySignature this Date_now rawPayload signature timestamp) = Ok true).
Proof.
  split; [apply parseWebhook_Ok_inv|].
  intros [Hjson Hverified]. destruct (truthy_secret this) as [key|] eqn:Hkey.
  - destruct Hverified as [H | Hv]; [discriminate|].
    rewrite (parseWebhook_configured _ _ _ _ _ _ Hkey).
    destruct (verifySignature this Date_now rawPayload signature timestamp) as [t [[|]|e]];
      unfold outcome in *; cbn [snd] in *; try discriminate.
    rewrite Hjson. reflexivity.
  - rewrite (parseWebhook_unconfigured _ _ _ _ _ Hkey). unfold outcome; cbn [snd].
    rewrite Hjson. reflexivity.
Qed.

(** X3: whatever [parseWebhook] raises is one of five errors: the three
    [verifySignature] raises once a secret is there (timestamp format,
    staleness, and the [RangeError] of the comparison), the error for a
    signature that does not match, and the parse error.  It never raises
    the error for a missing secret. *)
Theorem parseWebhook_errors this Date_now rawPayload signature timestamp (e : error) :
  outcome (parseWebhook this Date_now rawPayload signature timestamp) = Throw e ->
  e = invalid_timestamp_format
  \/ e = timestamp_out_of_window
  \/ e = ERR_CRYPTO_TIMING_SAFE_EQUAL_LENGTH
  \/ e = invalid_signature
  \/ e = invalid_payload_json.
Proof.
  destruct (truthy_secret this) as [key|] eqn:Hkey.
  - rewrite (parseWebhook_configured _ _ _ _ _ _ Hkey).
    pose proof (verifySignature_outcomes this Date_now rawPayload signature timestamp _ Hkey) as Hv.
    cbv zeta in Hv.
    destruct (verifySignature this Date_now rawPayload signature timestamp) as [t [[|]|e']];
      unfold outcome in *; cbn [snd] in *.
    + destruct (JSON.parse rawPayload); intros H; inversion H. auto 6.
    + intros H. inversion H. auto 6.
    + intros H. inversion H. subst e'.
      destruct Hv as [[_ Hv] | [_ [Hv | [Hv | [b Hv]]]]]; inversion Hv; auto 6.
  - rewrite (parseWebhook_unconfigured _ _ _ _ _ Hkey). unfold outcome; cbn [snd].
    destruct (JSON.parse rawPayload); intros H; inversion H. auto 6.
Qed.

Lemma parseWebhook_errors_witness :
  invalid_signature = invalid_timestamp_format
  \/ invalid_signature = timestamp_out_of_window
  \/ invalid_signature = ERR_CRYPTO_TIMING_SAFE_EQUAL_LENGTH
  \/ invalid_signature = invalid_signature
  \/ invalid_signature = invalid_payload_json.
Proof.
  apply (parseWebhook_errors (handler_with whsec_test) 1700000000000
           (js "{not json") (replicate 64 48) (js "1700000000") invalid_signature).
  vm_compute. reflexivity.
Defined.

(** ** The middleware *)

Lemma present_inv (h : option jsstring) (v : jsstring) :
  present h = Some v -> h = Some v /\ v <> [].
Proof.
  destruct h as [[|c r]|]; intros H; inversion H. split; [reflexivity | discriminate].
Qed.

(** The middleware past the header check. *)
Lemma webhookMiddleware_run {W} options Date_now req
  (next : json -> W -> W * completion) (w : W) rawBody signature timestamp :
  body_toString (body req) = Ok rawBody ->
  present (x_singlekey_signature req) = Some signature ->
  present (x_singlekey_timestamp req) = Some timestamp ->
  webhookMiddleware options Date_now req next w
  = match parseWebhook (new_WebhookHandler options) Date_now rawBody signature timestamp with
    | (t, Throw e) =>
      {| ops := t; singlekeyWebhook := None; reply := Some (respond_to e); world := w |}
    | (t, Ok webhook) =>
      {| ops := t; singlekeyWebhook := Some webhook;
         reply := match snd (next webhook w) with
                  | Normal => None
                  | Abrupt e => Some (respond_to e)
                  end;
         world := fst (next webhook w) |}
    end.
Proof.
  intros Hb Hs Ht. unfold webhookMiddleware. rewrite Hb, Hs, Ht.
  destruct (parseWebhook _ _ _ _ _) as [t [webhook | e]]; [|reflexivity].
  destruct (next webhook w). reflexivity.
Qed.

(** X4: a middleware made with a secret attaches a webhook to the request
    (and only then calls [next]) only for a request that has a body, both
    headers, a timestamp header that starts with an integer within the
    tolerance of the clock, and a signature header that encodes to the hex
    HMAC-SHA256 of the timestamp header, a point and the body as decoded;
    the webhook attached is what the body parses to. *)
Theorem middleware_authenticates {W} options Date_now req
  (next : json -> W -> W * completion) (w : W) (key : jsstring) (v : json) :
  truthy_secret (new_WebhookHandler options) = Some key ->
  singlekeyWebhook (webhookMiddleware options Date_now req next w) = Some v ->
  exists rawBody signature timestamp t,
    body_toString (body req) = Ok rawBody
    /\ x_singlekey_signature req = Some signature
    /\ x_singlekey_timestamp req = Some timestamp
    /\ parseInt timestamp = Some t
    /\ Z.abs (currentTime_of Date_now - t) <= tolerance (new_WebhookHandler options)
    /\ utf8 signature = sign key timestamp rawBody
    /\ JSON.parse rawBody = Some v.
Proof.
  intros Hkey Hv.
  destruct (body_toString (body req)) as [rawBody|e] eqn:Hb;
    [|unfold webhookMiddleware in Hv; rewrite Hb in Hv; discriminate].
  destruct (present (x_singlekey_signature req)) as [signature|] eqn:Hs;
    [|unfold webhookMiddleware in Hv; rewrite Hb, Hs in Hv; discriminate].
  destruct (present (x_singlekey_timestamp req)) as [timestamp|] eqn:Ht;
    [|unfold webhookMiddleware in Hv; rewrite Hb, Hs, Ht in Hv; discriminate].
  rewrite (webhookMiddleware_run _ _ _ _ _ _ _ _ Hb Hs Ht) in Hv.
  destruct (parseWebhook _ _ _ _ _) as [tr [webhook | e]] eqn:Hp; [|discriminate].
  cbn [singlekeyWebhook] in Hv. inversion Hv. subst webhook.
  assert (outcome (parseWebhook (new_WebhookHandler options) Date_now rawBody signature
                     timestamp) = Ok v) as Hok by (rewrite Hp; reflexivity).
  apply parseWebhook_Ok_inv in Hok. destruct Hok as [Hjson [Hnone | Hverified]];
    [congruence|].
  apply verifySignature_true_inv in Hverified.
  destruct Hverified as (key' & t & Hkey' & Hparse & Hfresh & Hsig).
  assert (key' = key) as -> by congruence.
  exists rawBody, signature, timestamp, t.
  repeat split; try assumption; [apply (present_inv _ _ Hs) | apply (present_inv _ _ Ht)].
Qed.

Lemma middleware_authenticates_witness :
  exists rawBody signature timestamp t,
    body_toString (body (signed_request 1700000000000 scenario_payload whsec_test None))
      = Ok rawBody
    /\ x_singlekey_signature (signed_request 1700000000000 scenario_payload whsec_test None)
       = Some signature
    /\ x_singlekey_timestamp (signed_request 1700000000000 scenario_payload whsec_test None)
       = Some timestamp
    /\ parseInt timestamp = Some t
    /\ Z.abs (currentTime_of 1700000000000 - t)
       <= tolerance (new_WebhookHandler (options_with whsec_test))
    /\ utf8 signature = sign whsec_test timestamp rawBody
    /\ JSON.parse rawBody = Some scenario_event.
Proof.
  apply (middleware_authenticates (options_with whsec_test) 1700000000000
           (signed_request 1700000000000 scenario_payload whsec_test None)
           next_logging [] whsec_test scenario_event).
  - reflexivity.
  - vm_compute. reflexivity.
Defined.

(** X5: a run of the middleware that attaches no webhook has not called
    [next] and has answered with status 400 or 401. *)
Theorem middleware_rejects_with_4xx {W} options Date_now req
  (next : json -> W -> W * completion) (w : W) :
  singlekeyWebhook (webhookMiddleware options Date_now req next w) = None ->
  world (webhookMiddleware options Date_now req next w) = w
  /\ exists status message,
       reply (webhookMiddleware options Date_now req next w) = Some (status, message)
       /\ (status = 400 \/ status = 401).
Proof.
  assert (forall e, exists status message,
            Some (respond_to e) = Some (status, message) /\ (status = 400 \/ status = 401))
    as Hrespond by (intros [m | m | m | n m]; cbn; eauto).
  unfold webhookMiddleware.
  destruct (body_toString (body req)) as [rawBody|e]; cbn; [|auto].
  destruct (present (x_singlekey_signature req)) as [signature|]; cbn; [|eauto 6].
  destruct (present (x_singlekey_timestamp req)) as [timestamp|]; cbn; [|eauto 6].
  destruct (parseWebhook _ _ _ _ _) as [t [webhook | e]]; cbn; [|auto].
  destruct (next webhook w). cbn. discriminate.
Qed.

Lemma middleware_rejects_with_4xx_witness :
  let r := webhookMiddleware (options_with whsec_test) 1700000000000
             {| body := BodyBuffer (utf8 scenario_payload);
                x_singlekey_signature := Some (replicate 64 48);
                x_singlekey_timestamp := Some (js "1700000000") |}
             next_logging [] in
  world r = []
  /\ exists status message,
       reply r = Some (status, message) /\ (status = 400 \/ status = 401).
Proof.
  apply (middleware_rejects_with_4xx (options_with whsec_test) 1700000000000
           {| body := BodyBuffer (utf8 scenario_payload);
              x_singlekey_signature := Some (replicate 64 48);
              x_singlekey_timestamp := Some (js "1700000000") |}
           next_logging []).
  vm_compute. reflexivity.
Defined.

(** X6: when the signature header or the timestamp header is absent or
    empty, the middleware answers 400 without a call of [parseWebhook] or of
    [next]: with [Missing webhook headers] when the request has a body, and
    with [Invalid webhook payload] when it has none, because the body is
    read first. *)
Theorem middleware_missing_headers {W} options Date_now req
  (next : json -> W -> W * completion) (w : W) :
  present (x_singlekey_signature req) = None
    \/ present (x_singlekey_timestamp req) = None ->
  webhookMiddleware options Date_now req next w
  = {| ops := []; singlekeyWebhook := None;
       reply := Some (400, match body req with
                           | BodyUndefined => "Invalid webhook payload"
                           | _ => "Missing webhook headers"
                           end%string);
       world := w |}.
Proof.
  intros Hmissing. unfold webhookMiddleware.
  destruct (body req); cbn [body_toString]; try reflexivity;
    destruct Hmissing as [-> | H]; try reflexivity;
    destruct (present (x_singlekey_signature req)); rewrite ?H; reflexivity.
Qed.

Lemma middleware_missing_headers_witness :
  webhookMiddleware (options_with whsec_test) 1700000000000
    {| body := BodyBuffer (utf8 scenario_payload);
       x_singlekey_signature := Some [];
       x_singlekey_timestamp := Some (js "1700000000") |}
    next_logging []
  = {| ops := []; singlekeyWebhook := None;
       reply := Some (400, "Missing webhook headers"%string);
       world := [] |}.
Proof.
  apply (middleware_missing_headers (options_with whsec_test) 1700000000000
           {| body := BodyBuffer (utf8 scenario_payload);
              x_singlekey_signature := Some [];
              x_singlekey_timestamp := Some (js "1700000000") |}
           next_logging []).
  left. reflexivity.
Defined.

(** X7: with a secret, a body, both headers and a timestamp within the
    tolerance, a signature header that is not the expected digest is
    answered 401 [Invalid webhook signature] when it is 64 bytes long, and
    400 [Invalid webhook payload] when it has any other length: the
    [RangeError] of the comparison is not a [WebhookVerificationError].  In
    both cases nothing is parsed and [next] is not called. *)
Theorem middleware_wrong_signature {W} options Date_now req
  (next : json -> W -> W * completion) (w : W) key rawBody signature timestamp t :
  truthy_secret (new_WebhookHandler options) = Some key ->
  body_toString (body req) = Ok rawBody ->
  present (x_singlekey_signature req) = Some signature ->
  present (x_singlekey_timestamp req) = Some timestamp ->
  parseInt timestamp = Some t ->
  Z.abs (currentTime_of Date_now - t) <= tolerance (new_WebhookHandler options) ->
  utf8 signature <> sign key timestamp rawBody ->
  let r := webhookMiddleware options Date_now req next w in
  reply r = Some (if (length (utf8 signature) =? 64)%nat
                  then (401, "Invalid webhook signature"%string)
                  else (400, "Invalid webhook payload"%string))
  /\ singlekeyWebhook r = None
  /\ world r = w
  /\ parses_json (ops r) = false.
Proof.
  intros Hkey Hb Hs Ht Hp Hfresh Hsig r. unfold r.
  rewrite (webhookMiddleware_run _ _ _ _ _ _ _ _ Hb Hs Ht).
  rewrite (parseWebhook_configured _ _ _ _ _ _ Hkey).
  rewrite (verifySignature_fresh _ _ _ _ _ _ _ Hkey Hp Hfresh).
  destruct (Nat.eqb_spec (length (utf8 signature)) 64) as [Hlen | Hlen].
  - rewrite (comparison_boolean _ _ _ Hlen).
    rewrite bool_decide_eq_false_2 by exact Hsig.
    repeat split; reflexivity.
  - rewrite (comparison_length _ _ _ Hlen). repeat split; reflexivity.
Qed.

Lemma middleware_wrong_signature_witness :
  let r := webhookMiddleware (options_with whsec_test) 1700000000000
             {| body := BodyBuffer (utf8 scenario_payload);
                x_singlekey_signature := Some (js "abc");
                x_singlekey_timestamp := Some (js "1700000000") |}
             next_logging [] in
  reply r = Some (if (length (utf8 (js "abc")) =? 64)%nat
                  then (401, "Invalid webhook signature"%string)
                  else (400, "Invalid webhook payload"%string))
  /\ singlekeyWebhook r = None
  /\ world r = []
  /\ parses_json (ops r) = false.
Proof.
  apply (middleware_wrong_signature (options_with whsec_test) 1700000000000
           {| body := BodyBuffer (utf8 scenario_payload);
              x_singlekey_signature := Some (js "abc");
              x_singlekey_timestamp := Some (js "1700000000") |}
           next_logging [] whsec_test scenario_payload (js "abc") (js "1700000000")
           1700000000).
  - reflexivity.
  - vm_compute. reflexivity.
  - reflexivity.
  - reflexivity.
  - reflexivity.
  - vm_compute. discriminate.
  - vm_compute. discriminate.
Defined.

Example middleware_status_by_signature_length :
  let answer signature :=
    reply (webhookMiddleware (options_with whsec_test) 1700000000000
             {| body := BodyBuffer (utf8 scenario_payload);
                x_singlekey_signature := Some signature;
                x_singlekey_timestamp := Some (js "1700000000") |}
             next_logging []) in
  answer (js "abc") = Some (400, "Invalid webhook payload"%string)
  /\ answer (replicate 64 48) = Some (401, "Invalid webhook signature"%string)
  /\ answer (sign whsec_test (js "1700000000") scenario_payload) = None.
Proof. vm_compute. repeat split; reflexivity. Qed.

(** X8: the request a sender builds for a well-formed payload, the body in
    UTF-8 and the two headers from [constructWebhookSignature], passes a
    middleware made with the same non-empty secret while the signed
    timestamp is within the tolerance of the clock.  When the payload is
    JSON its parsed value is attached, [next] is called, and the middleware
    answers only if [next] throws; when it is not JSON the answer is 401
    [Invalid webhook payload JSON]. *)
Theorem middleware_accepts_signed {W} (Date_now_sign Date_now : Z)
  (payload s : jsstring) (t tol : option Z)
  (next : json -> W -> W * completion) (w : W) :
  s <> [] ->
  well_formed payload = true ->
  let options := Some {| opt_secret := Some s; opt_tolerance := tol |} in
  Z.abs (currentTime_of Date_now - or_default t (currentTime_of Date_now_sign))
    <= tolerance (new_WebhookHandler options) ->
  let r := webhookMiddleware options Date_now
             (signed_request Date_now_sign payload s t) next w in
  match JSON.parse payload with
  | Some v =>
    singlekeyWebhook r = Some v
    /\ world r = fst (next v w)
    /\ reply r = match snd (next v w) with
                 | Normal => None
                 | Abrupt e => Some (respond_to e)
                 end
  | None =>
    singlekeyWebhook r = None
    /\ world r = w
    /\ reply r = Some (401, "Invalid webhook payload JSON"%string)
  end.
Proof.
  intros Hne Hwf options Hfresh r.
  assert (truthy_secret (new_WebhookHandler options) = Some s) as Hkey
    by (apply truthy_secret_Some; [reflexivity | exact Hne]).
  assert (present (Some (hmac_sha256_hex s
            (signedPayload_of
               (Number_toString (or_default t (currentTime_of Date_now_sign))) payload)))
          = Some (hmac_sha256_hex s
            (signedPayload_of
               (Number_toString (or_default t (currentTime_of Date_now_sign))) payload)))
    as Hs.
  { destruct (hmac_sha256_hex_shape s
               (signedPayload_of
                  (Number_toString (or_default t (currentTime_of Date_now_sign))) payload))
      as [_ Hlen].
    destruct (hmac_sha256_hex _ _); [discriminate | reflexivity]. }
  assert (present (Some (Number_toString (or_default t (currentTime_of Date_now_sign))))
          = Some (Number_toString (or_default t (currentTime_of Date_now_sign)))) as Ht.
  { pose proof (parseInt_Number_toString (or_default t (currentTime_of Date_now_sign))) as Hp.
    destruct (Number_toString _); [discriminate | reflexivity]. }
  assert (body_toString (BodyBuffer (utf8 payload)) = Ok payload) as Hb
    by (cbn [body_toString]; rewrite (utf8_decode_utf8 _ Hwf); reflexivity).
  pose proof (webhookMiddleware_run options Date_now
                (signed_request Date_now_sign payload s t) next w payload _ _ Hb Hs Ht)
    as Hrun.
  unfold r. rewrite Hrun. clear Hrun.
  rewrite (parseWebhook_configured _ _ _ _ _ _ Hkey).
  rewrite (verifySignature_fresh _ _ _ _ _ _ _ Hkey (parseInt_Number_toString _) Hfresh).
  rewrite comparison_same.
  destruct (JSON.parse payload); repeat split; reflexivity.
Qed.

Lemma middleware_accepts_signed_witness :
  let options := Some {| opt_secret := Some whsec_test; opt_tolerance := None |} in
  let r := webhookMiddleware options 1700000000000
             (signed_request 1700000000000 scenario_payload whsec_test (Some 1699999900))
             next_logging [] in
  match JSON.parse scenario_payload with
  | Some v =>
    singlekeyWebhook r = Some v
    /\ world r = fst (next_logging v [])
    /\ reply r = match snd (next_logging v []) with
                 | Normal => None
                 | Abrupt e => Some (respond_to e)
                 end
  | None =>
    singlekeyWebhook r = None
    /\ world r = []
    /\ reply r = Some (401, "Invalid webhook payload JSON"%string)
  end.
Proof.
  apply (middleware_accepts_signed 1700000000000 1700000000000 scenario_payload whsec_test
           (Some 1699999900) None next_logging []).
  - discriminate.
  - vm_compute. reflexivity.
  - vm_compute. discriminate.
Defined.

(** X9: a middleware made without a secret never verifies: for a request
    with a body and two non-empty headers, whatever they hold, it parses
    the body, attaches the value and calls [next]; a body that is not JSON
    is answered 401 [Invalid webhook payload JSON]. *)
Theorem middleware_without_secret {W} options Date_now req
  (next : json -> W -> W * completion) (w : W) rawBody signature timestamp :
  truthy_secret (new_WebhookHandler options) = None ->
  body_toString (body req) = Ok rawBody ->
  present (x_singlekey_signature req) = Some signature ->
  present (x_singlekey_timestamp req) = Some timestamp ->
  webhookMiddleware options Date_now req next w
  = match JSON.parse rawBody with
    | Some v =>
      {| ops := [ParseJson rawBody]; singlekeyWebhook := Some v;
         reply := match snd (next v w) with
                  | Normal => None
                  | Abrupt e => Some (respond_to e)
                  end;
         world := fst (next v w) |}
    | None =>
      {| ops := [ParseJson rawBody]; singlekeyWebhook := None;
         reply := Some (401, "Invalid webhook payload JSON"%string); world := w |}
    end.
Proof.
  intros Hkey Hb Hs Ht.
  rewrite (webhookMiddleware_run _ _ _ _ _ _ _ _ Hb Hs Ht).
  rewrite (parseWebhook_unconfigured _ _ _ _ _ Hkey).
  destruct (JSON.parse rawBody); reflexivity.
Qed.

Lemma middleware_without_secret_witness :
  webhookMiddleware None 1700000000000
    {| body := BodyBuffer (utf8 scenario_payload);
       x_singlekey_signature := Some (js "anything");
       x_singlekey_timestamp := Some (js "never") |}
    next_logging []
  = match JSON.parse scenario_payload with
    | Some v =>
      {| ops := [ParseJson scenario_payload]; singlekeyWebhook := Some v;
         reply := match snd (next_logging v []) with
                  | Normal => None
                  | Abrupt e => Some (respond_to e)
                  end;
         world := fst (next_logging v []) |}
    | None =>
      {| ops := [ParseJson scenario_payload]; singlekeyWebhook := None;
         reply := Some (401, "Invalid webhook payload JSON"%string); world := [] |}
    end.
Proof.
  apply (middleware_without_secret None 1700000000000
           {| body := BodyBuffer (utf8 scenario_payload);
              x_singlekey_signature := Some (js "anything");
              x_singlekey_timestamp := Some (js "never") |}
           next_logging [] scenario_payload (js "anything") (js "never")).
  - reflexivity.
  - vm_compute. reflexivity.
  - reflexivity.
  - reflexivity.
Defined.

(** ** What [constructWebhookSignature] returns *)

Lemma hex_lower (b : bytes) : Forall is_byte b -> forallb is_lower_hex (hex b) = true.
Proof.
  induction 1 as [|x r Hx _ IH]; [reflexivity|].
  cbn [hex forallb]. rewrite IH. unfold is_byte in Hx.
  assert (0 <= x / 16 < 16) by (split; [apply Z.div_pos | apply Z.div_lt_upper_bound]; lia).
  pose proof (Z.mod_pos_bound x 16 ltac:(lia)).
  assert (forall n, 0 <= n < 16 -> is_lower_hex (hex_digit n) = true) as Hd.
  { intros n Hn. unfold is_lower_hex, is_digit, hex_digit.
    destruct (Z.ltb_spec n 10); lia. }
  rewrite !Hd by assumption. reflexivity.
Qed.

(** X10: the pair [constructWebhookSignature] returns, for every payload
    and secret and every timestamp that is a safe integer (the clock's
    second is signed when the timestamp is left out or is 0, so that second
    0 cannot be signed for): the signature is 64 lower-case hexadecimal
    digits and signs the returned timestamp header with the payload, and
    the timestamp header reads back as the timestamp signed. *)
Theorem constructWebhookSignature_shape (Date_now : Z) (payload s : jsstring)
  (t : option Z) :
  isSafeInteger (or_default t (currentTime_of Date_now)) ->
  let r := constructWebhookSignature Date_now payload s t in
  length (sig_signature r) = 64%nat
  /\ forallb is_lower_hex (sig_signature r) = true
  /\ sig_signature r = sign s (sig_timestamp r) payload
  /\ parseInt (sig_timestamp r) = Some (or_default t (currentTime_of Date_now))
  /\ constructWebhookSignature Date_now payload s (Some 0)
     = constructWebhookSignature Date_now payload s None.
Proof.
  intros _ r. unfold r, constructWebhookSignature. cbn [sig_signature sig_timestamp].
  split; [apply hmac_sha256_hex_shape|].
  split.
  - unfold hmac_sha256_hex, SHA256.hmac.
    match goal with |- context [hex (SHA256.digest ?m)] =>
      destruct (digest_shape m) as [_ Hb] end.
    apply hex_lower, Hb.
  - split; [reflexivity|]. split; [apply parseInt_Number_toString | reflexivity].
Qed.

Lemma constructWebhookSignature_shape_witness :
  let r := constructWebhookSignature 1700000000000 scenario_payload whsec_test
             (Some 1700000000) in
  length (sig_signature r) = 64%nat
  /\ forallb is_lower_hex (sig_signature r) = true
  /\ sig_signature r = sign whsec_test (sig_timestamp r) scenario_payload
  /\ parseInt (sig_timestamp r)
     = Some (or_default (Some 1700000000) (currentTime_of 1700000000000))
  /\ constructWebhookSignature 1700000000000 scenario_payload whsec_test (Some 0)
     = constructWebhookSignature 1700000000000 scenario_payload whsec_test None.
Proof.
  apply (constructWebhookSignature_shape 1700000000000 scenario_payload whsec_test
           (Some 1700000000)).
  vm_compute. discriminate.
Defined.

(** ** Tolerances and timestamp headers at the edges *)

(** X11: the constructor keeps a negative tolerance, and a handler with one
    accepts nothing: every call of [verifySignature] ends with the error
    for a missing secret, for the timestamp format or for staleness, and no
    digest is computed. *)
Theorem negative_tolerance_rejects_all (s : option jsstring) (tol Date_now : Z)
  (payload signature timestamp : jsstring) :
  tol < 0 ->
  let this := new_WebhookHandler (Some {| opt_secret := s; opt_tolerance := Some tol |}) in
  let v := verifySignature this Date_now payload signature timestamp in
  tolerance this = tol
  /\ computes_digest (trace v) = false
  /\ (outcome v = Throw secret_not_configured
      \/ outcome v = Throw invalid_timestamp_format
      \/ outcome v = Throw timestamp_out_of_window).
Proof.
  intros Htol this v.
  assert (tolerance this = tol) as Ht.
  { unfold this, new_WebhookHandler, or_default. cbn.
    destruct (Z.eqb_spec tol 0); [lia | reflexivity]. }
  split; [exact Ht|]. unfold v.
  destruct (truthy_secret this) as [key|] eqn:Hkey;
    [|rewrite (verifySignature_unconfigured _ _ _ _ _ Hkey); split; [reflexivity | auto]].
  destruct (parseInt timestamp) as [t|] eqn:Hp;
    [|rewrite (verifySignature_NaN _ _ _ _ _ _ Hkey Hp); split; [reflexivity | auto]].
  rewrite (verifySignature_stale _ _ _ _ _ _ t Hkey Hp) by (rewrite Ht; lia).
  split; [reflexivity | auto].
Qed.

Lemma negative_tolerance_rejects_all_witness :
  let this := new_WebhookHandler
                (Some {| opt_secret := Some whsec_test; opt_tolerance := Some (-1) |}) in
  let v := verifySignature this 1700000000000 scenario_payload
             (sign whsec_test (js "1700000000") scenario_payload) (js "1700000000") in
  tolerance this = -1
  /\ computes_digest (trace v) = false
  /\ (outcome v = Throw secret_not_configured
      \/ outcome v = Throw invalid_timestamp_format
      \/ outcome v = Throw timestamp_out_of_window).
Proof.
  apply (negative_tolerance_rejects_all (Some whsec_test) (-1) 1700000000000
           scenario_payload (sign whsec_test (js "1700000000") scenario_payload)
           (js "1700000000")).
  lia.
Defined.

Lemma skip_StrWhiteSpace_app (ws s : jsstring) :
  Forall (fun c => is_StrWhiteSpaceChar c = true) ws ->
  skip_StrWhiteSpace (ws ++ s) = skip_StrWhiteSpace s.
Proof. induction 1 as [|c r Hc _ IH]; [reflexivity|]. cbn. rewrite Hc. exact IH. Qed.

(** White space before the digits and anything but a digit after them
    leave the integer read unchanged. *)
Lemma parseInt_lenient (ws ds rest : jsstring) :
  Forall (fun c => is_StrWhiteSpaceChar c = true) ws ->
  Forall (fun c => is_digit c = true) ds -> ds <> [] ->
  match rest with c :: _ => is_digit c = false | [] => True end ->
  parseInt (ws ++ ds ++ rest) = Some (digits_value ds).
Proof.
  intros Hws Hds Hne Hrest.
  assert (parseInt (ds ++ rest) = Some (digits_value ds)) as Hp.
  { destruct rest as [|c rest']; [rewrite app_nil_r; apply parseInt_digits; assumption|].
    apply parseInt_trailing; assumption. }
  unfold parseInt in *. rewrite skip_StrWhiteSpace_app by exact Hws. exact Hp.
Qed.

(** X12: freshness is judged on the integer found in the timestamp header
    after leading white space, and what follows the digits is ignored, but
    the digest covers the header as received: with a secret, a header made
    of white space, digits and a tail that starts with no digit verifies
    with the signature of that very header when the integer is within the
    tolerance. *)
Theorem lenient_timestamp_header this (s : jsstring) (Date_now : Z)
  (payload ws ds rest : jsstring) :
  secret this = Some s ->
  s <> [] ->
  Forall (fun c => is_StrWhiteSpaceChar c = true) ws ->
  Forall (fun c => is_digit c = true) ds ->
  ds <> [] ->
  match rest with c :: _ => is_digit c = false | [] => True end ->
  Z.abs (currentTime_of Date_now - digits_value ds) <= tolerance this ->
  let timestamp := ws ++ ds ++ rest in
  verifySignature this Date_now payload (sign s timestamp payload) timestamp
  = ([ReadClock;
      ComputeHmac s (signedPayload_of timestamp payload);
      CompareBuffers (utf8 (sign s timestamp payload)) (utf8 (sign s timestamp payload))],
     Ok true).
Proof.
  intros Hs Hne Hws Hds Hd Hrest Hfresh timestamp.
  pose proof (truthy_secret_Some _ _ Hs Hne) as Hkey.
  rewrite (verifySignature_fresh _ _ _ _ _ _ _ Hkey
             (parseInt_lenient ws ds rest Hws Hds Hd Hrest) Hfresh).
  fold timestamp. unfold sign. rewrite comparison_same. reflexivity.
Qed.

Lemma lenient_timestamp_header_witness :
  let timestamp := js "  " ++ js "1700000000" ++ js " GMT" in
  verifySignature (handler_with whsec_test) 1700000000000 scenario_payload
    (sign whsec_test timestamp scenario_payload) timestamp
  = ([ReadClock;
      ComputeHmac whsec_test (signedPayload_of timestamp scenario_payload);
      CompareBuffers (utf8 (sign whsec_test timestamp scenario_payload))
        (utf8 (sign whsec_test timestamp scenario_payload))],
     Ok true).
Proof.
  apply (lenient_timestamp_header (handler_with whsec_test) whsec_test 1700000000000
           scenario_payload (js "  ") (js "1700000000") (js " GMT")).
  - reflexivity.
  - discriminate.
  - repeat constructor.
  - repeat constructor.
  - discriminate.
  - reflexivity.
  - vm_compute. discriminate.
Defined.

(** ** Polling for a report *)

Lemma fetches_with_sleeps_S (k : nat) (intervalMs : Z) :
  fetches_with_sleeps (S k) intervalMs
  = Fetched :: Slept intervalMs :: fetches_with_sleeps k intervalMs.
Proof. reflexivity. Qed.

Lemma poll_from_decisive responses maxAttempts intervalMs (k : nat) :
  forall remaining attempt,
    Z.of_nat (attempt + remaining) = maxAttempts ->
    (k < remaining)%nat ->
    (forall j, (j < k)%nat -> decisive (responses (attempt + j)%nat) = false) ->
    decisive (responses (attempt + k)%nat) = true ->
    poll_from responses maxAttempts intervalMs remaining attempt
    = (fetches_with_sleeps k intervalMs, responses (attempt + k)%nat).
Proof.
  induction k as [|k IH]; intros remaining attempt Hmax Hk Hbefore Hat;
    (destruct remaining as [|rem]; [lia|]); cbn [poll_from].
  - rewrite Nat.add_0_r in *. unfold decisive in Hat.
    destruct (responses attempt) as [report|e]; [rewrite Hat|]; reflexivity.
  - pose proof (Hbefore 0%nat ltac:(lia)) as H0. rewrite Nat.add_0_r in H0.
    unfold decisive in H0. destruct (responses attempt) as [report|e]; [|discriminate].
    rewrite H0.
    assert ((Z.of_nat attempt <? maxAttempts - 1) = true) as -> by lia.
    rewrite (IH rem (S attempt)).
    + rewrite fetches_with_sleeps_S. replace (S attempt + k)%nat with (attempt + S k)%nat by lia.
      reflexivity.
    + lia.
    + lia.
    + intros j Hj. replace (S attempt + j)%nat with (attempt + S j)%nat by lia.
      apply Hbefore. lia.
    + replace (S attempt + k)%nat with (attempt + S k)%nat by lia. exact Hat.
Qed.

Lemma poll_from_used_up responses maxAttempts intervalMs :
  forall remaining attempt,
    Z.of_nat (attempt + remaining) = maxAttempts ->
    (forall j, (j < remaining)%nat -> decisive (responses (attempt + j)%nat) = false) ->
    poll_from responses maxAttempts intervalMs remaining attempt
    = (used_up remaining intervalMs, Throw (did_not_complete maxAttempts intervalMs)).
Proof.
  induction remaining as [|rem IH]; intros attempt Hmax Hnone; [reflexivity|].
  cbn [poll_from].
  pose proof (Hnone 0%nat ltac:(lia)) as H0. rewrite Nat.add_0_r in H0.
  unfold decisive in H0. destruct (responses attempt) as [report|e]; [|discriminate].
  rewrite H0. rewrite (IH (S attempt)).
  - destruct rem as [|rem'].
    + assert ((Z.of_nat attempt <? maxAttempts - 1) = false) as -> by lia. reflexivity.
    + assert ((Z.of_nat attempt <? maxAttempts - 1) = true) as -> by lia. reflexivity.
  - lia.
  - intros j Hj. replace (S attempt + j)%nat with (attempt + S j)%nat by lia.
    apply Hnone. lia.
Qed.

Lemma attempts_of_options (options : PollingOptions) :
  Z.of_nat (0 + Z.to_nat (or_default (opt_maxAttempts options) 40))
  = or_default (opt_maxAttempts options) 40
  \/ or_default (opt_maxAttempts options) 40 < 0.
Proof. lia. Qed.

(** X13: [waitForCompletion] stops at the first call of [get] that gives a
    complete report or throws, when that call is among the [maxAttempts]
    (40 when left out or 0) it allows: it returns that report, or throws
    that very error without another attempt, after one fetch per attempt
    and one sleep of [intervalMs] (10000 when left out or 0) before each
    attempt but the first. *)
Theorem waitForCompletion_settles (responses : nat -> result ScreeningReportResponse)
  (options : PollingOptions) (k : nat) :
  (k < Z.to_nat (or_default (opt_maxAttempts options) 40))%nat ->
  (forall j, (j < k)%nat -> decisive (responses j) = false) ->
  decisive (responses k) = true ->
  waitForCompletion responses options
  = (fetches_with_sleeps k (or_default (opt_intervalMs options) 10000), responses k).
Proof.
  intros Hk Hbefore Hat. unfold waitForCompletion.
  apply (poll_from_decisive responses _ _ k _ 0%nat); try assumption.
  destruct (attempts_of_options options); lia.
Qed.

Lemma waitForCompletion_settles_witness :
  waitForCompletion ready_at_third {| opt_maxAttempts := Some 5; opt_intervalMs := None |}
  = (fetches_with_sleeps 2
       (or_default (opt_intervalMs {| opt_maxAttempts := Some 5; opt_intervalMs := None |})
          10000),
     ready_at_third 2).
Proof.
  apply (waitForCompletion_settles ready_at_third
           {| opt_maxAttempts := Some 5; opt_intervalMs := None |} 2).
  - vm_compute. lia.
  - intros j Hj. destruct j as [|[|j]]; [reflexivity | reflexivity | lia].
  - reflexivity.
Defined.

(** X14: when none of the allowed attempts gives a complete report or an
    error, [waitForCompletion] throws the error that names the attempts and
    the seconds, after [maxAttempts] fetches with a sleep between two
    fetches and none after the last; with a negative [maxAttempts] it
    throws at once, without a fetch.  The seconds of the message are those
    of a product [maxAttempts * intervalMs] of at most 15 digits, which a
    number divided by 1000 prints digit for digit. *)
Theorem waitForCompletion_gives_up (responses : nat -> result ScreeningReportResponse)
  (options : PollingOptions) :
  let maxAttempts := or_default (opt_maxAttempts options) 40 in
  let intervalMs := or_default (opt_intervalMs options) 10000 in
  Z.abs (maxAttempts * intervalMs) < 10 ^ 15 ->
  (forall j, (j < Z.to_nat maxAttempts)%nat -> decisive (responses j) = false) ->
  waitForCompletion responses options
  = (used_up (Z.to_nat maxAttempts) intervalMs,
     Throw (did_not_complete maxAttempts intervalMs)).
Proof.
  intros maxAttempts intervalMs _ Hnone. unfold waitForCompletion.
  fold maxAttempts intervalMs.
  destruct (Z.to_nat maxAttempts) as [|n] eqn:Hn; [reflexivity|].
  apply (poll_from_used_up responses maxAttempts intervalMs (S n) 0%nat); [lia|].
  exact Hnone.
Qed.

Lemma waitForCompletion_gives_up_witness :
  waitForCompletion ready_at_third {| opt_maxAttempts := Some 2; opt_intervalMs := Some 1500 |}
  = (used_up (Z.to_nat 2) 1500, Throw (did_not_complete 2 1500)).
Proof.
  apply (waitForCompletion_gives_up ready_at_third
           {| opt_maxAttempts := Some 2; opt_intervalMs := Some 1500 |});
    [vm_compute; reflexivity|].
  intros j Hj. destruct j as [|[|j]]; [reflexivity | reflexivity | vm_compute in Hj; lia].
Defined.

Example gives_up_message :
  snd (waitForCompletion ready_at_third {| opt_maxAttempts := Some 2; opt_intervalMs := Some 1500 |})
  = Throw (OtherError "Error" "Report did not complete after 2 attempts (3s)")
  /\ waitForCompletion ready_at_third {| opt_maxAttempts := Some (-2); opt_intervalMs := Some 250 |}
     = ([], Throw (OtherError "Error" "Report did not complete after -2 attempts (-0.5s)")).
Proof. split; vm_compute; reflexivity. Qed.

Lemma poll_from_invariant responses maxAttempts intervalMs :
  forall remaining attempt,
    Z.of_nat (attempt + remaining) = maxAttempts ->
    let run := poll_from responses maxAttempts intervalMs remaining attempt in
    (fetches (fst run) <= remaining)%nat
    /\ ((1 <= remaining)%nat -> (1 <= fetches (fst run))%nat)
    /\ sleeps (fst run) = (fetches (fst run) - 1)%nat
    /\ Forall (fun e => e = Fetched \/ e = Slept intervalMs) (fst run)
    /\ (forall report, snd run = Ok report ->
          is_complete report = true /\ exists k, responses k = Ok report).
Proof.
  induction remaining as [|rem IH]; intros attempt Hmax; cbn [poll_from].
  - cbn. split; [lia|]. split; [lia|]. split; [reflexivity|]. split; [constructor|].
    discriminate.
  - destruct (responses attempt) as [report|e] eqn:Hr.
    + destruct (is_complete report) eqn:Hc.
      * cbn. split; [lia|]. split; [lia|]. split; [reflexivity|].
        split; [constructor; [auto | constructor]|].
        intros rep Hrep. inversion Hrep. subst rep. eauto.
      * specialize (IH (S attempt) ltac:(lia)). cbv zeta in IH.
        destruct (poll_from responses maxAttempts intervalMs rem (S attempt)) as [t r].
        cbn [fst snd] in *. destruct IH as (Hle & Hge & Hsl & Hall & Hok).
        destruct rem as [|rem'].
        -- assert ((Z.of_nat attempt <? maxAttempts - 1) = false) as -> by lia.
           cbn. split; [lia|]. split; [lia|]. split; [lia|].
           split; [constructor; auto | exact Hok].
        -- assert ((Z.of_nat attempt <? maxAttempts - 1) = true) as -> by lia.
           specialize (Hge ltac:(lia)). cbn. split; [lia|]. split; [lia|]. split; [lia|].
           split; [constructor; [auto | constructor; [auto | exact Hall]] | exact Hok].
    + cbn. split; [lia|]. split; [lia|]. split; [reflexivity|].
      split; [constructor; [auto | constructor] | discriminate].
Qed.

(** X15: every run of [waitForCompletion], whatever the server answers:
    [get] is called at most [maxAttempts] times, each sleep lasts
    [intervalMs] and there is exactly one sleep between two fetches; a
    report that is returned is complete and is one the server gave. *)
Theorem waitForCompletion_bounds (responses : nat -> result ScreeningReportResponse)
  (options : PollingOptions) :
  let maxAttempts := or_default (opt_maxAttempts options) 40 in
  let intervalMs := or_default (opt_intervalMs options) 10000 in
  let run := waitForCompletion responses options in
  (fetches (fst run) <= Z.to_nat maxAttempts)%nat
  /\ sleeps (fst run) = (fetches (fst run) - 1)%nat
  /\ Forall (fun e => e = Fetched \/ e = Slept intervalMs) (fst run)
  /\ (forall report, snd run = Ok report ->
        is_complete report = true /\ exists k, responses k = Ok report).
Proof.
  intros maxAttempts intervalMs run. unfold run, waitForCompletion.
  fold maxAttempts intervalMs.
  destruct (Z.to_nat maxAttempts) as [|n] eqn:Hn.
  - cbn. split; [lia|]. split; [reflexivity|]. split; [constructor | discriminate].
  - pose proof (poll_from_invariant responses maxAttempts intervalMs (S n) 0%nat
                  ltac:(lia)) as H.
    cbv zeta in H. destruct H as (Hle & _ & Hsl & Hall & Hok). auto.
Qed.

(** X16: [isReady] is [true] exactly when [waitForCompletion] with one
    attempt, on the same answer of the server, returns a report; an error
    of [get] makes [isReady] answer [false] and [waitForCompletion] throw. *)
Theorem isReady_is_one_attempt (responses : nat -> result ScreeningReportResponse)
  (intervalMs : option Z) :
  let run := waitForCompletion responses
               {| opt_maxAttempts := Some 1; opt_intervalMs := intervalMs |} in
  (isReady (responses 0%nat) = true <-> exists report, snd run = Ok report)
  /\ fst run = [Fetched]
  /\ (forall e, responses 0%nat = Throw e ->
        isReady (responses 0%nat) = false /\ snd run = Throw e).
Proof.
  intros run. unfold run, waitForCompletion. cbn [opt_maxAttempts or_default].
  change (Z.to_nat (if 1 =? 0 then 40 else 1)) with 1%nat.
  cbn [poll_from]. unfold isReady.
  destruct (responses 0%nat) as [report|e].
  - destruct (is_complete report); cbn.
    + split; [split; eauto|]. split; [reflexivity | discriminate].
    + split; [split; [discriminate | intros [r Hr]; discriminate]|].
      split; [reflexivity | discriminate].
  - cbn. split; [split; [discriminate | intros [r Hr]; discriminate]|].
    split; [reflexivity|]. intros e' He. inversion He. split; reflexivity.
Qed.

(** [getStatus] never returns an empty status: a report without a detail,
    or with an empty one, gives [Unknown status]; an error of [get] is
    thrown as it is. *)
Lemma getStatus_never_empty (response : result ScreeningReportResponse) :
  match response with
  | Ok report =>
    exists status, getStatus response = Ok status /\ status <> []
      /\ (detail report = None \/ detail report = Some [] -> status = js "Unknown status")
  | Throw e => getStatus response = Throw e
  end.
Proof.
  destruct response as [report|e]; [|reflexivity].
  unfold getStatus. destruct (detail report) as [[|c r]|]; eexists;
    (split; [reflexivity|]); (split; [discriminate|]);
    intros [Hd | Hd]; try discriminate; reflexivity.
Qed.

(** ** Errors of the HTTP client *)

(** [handleError] by the status of the response. *)
Lemma handleError_cases (e : Http.AxiosError) (r : Http.AxiosResponse) :
  Http.response e = Some r ->
  let m := Http.message_of (Http.data r) e in
  (Http.status r = 400
   /\ Http.handleError e = Http.ValidationError m (default [] (Http.data r ≫= Http.errors)))
  \/ (Http.status r = 401 /\ Http.handleError e = Http.AuthenticationError m)
  \/ (Http.status r = 404 /\ Http.handleError e = Http.NotFoundError m)
  \/ (Http.status r = 429 /\ Http.handleError e = Http.RateLimitError m)
  \/ (In (Http.status r) [500; 502; 503; 504]
      /\ Http.handleError e = Http.ServerError m (Http.status r))
  \/ (~ In (Http.status r) [400; 401; 404; 429; 500; 502; 503; 504]
      /\ Http.handleError e = Http.APIError m (Http.status r) (Http.data r)).
Proof.
  intros Hr m. unfold Http.handleError. rewrite Hr. fold m.
  destruct (Z.eqb_spec (Http.status r) 400); [auto|].
  destruct (Z.eqb_spec (Http.status r) 401); [auto|].
  destruct (Z.eqb_spec (Http.status r) 404); [auto 6|].
  destruct (Z.eqb_spec (Http.status r) 429); [auto 6|].
  destruct (Z.eqb_spec (Http.status r) 500); [right; right; right; right; left; cbn; auto|].
  destruct (Z.eqb_spec (Http.status r) 502); [right; right; right; right; left; cbn; auto|].
  destruct (Z.eqb_spec (Http.status r) 503); [right; right; right; right; left; cbn; auto|].
  destruct (Z.eqb_spec (Http.status r) 504); [right; right; right; right; left; cbn; auto 6|].
  right; right; right; right; right. split; [|reflexivity].
  cbn. intros H. repeat (destruct H as [H | H]; [congruence|]). exact H.
Qed.

(** X17: [handleError] returns a [ServerError] exactly when the error has no
    response or the status is 500, 502, 503 or 504, and an [APIError]
    exactly when there is a response with a status outside 400, 401, 404,
    429 and those four, so that a 501 is an [APIError]; the status code an
    error carries is the status of the response, and 500 when there is
    none. *)
Theorem handleError_status_codes (e : Http.AxiosError) :
  (Http.is_ServerError (Http.handleError e) = true
   <-> Http.response e = None
       \/ exists r, Http.response e = Some r /\ In (Http.status r) [500; 502; 503; 504])
  /\ (Http.is_APIError (Http.handleError e) = true
      <-> exists r, Http.response e = Some r
            /\ ~ In (Http.status r) [400; 401; 404; 429; 500; 502; 503; 504])
  /\ (forall c, Http.statusCode_in (Http.handleError e) = Some c ->
        c = match Http.response e with Some r => Http.status r | None => 500 end).
Proof.
  destruct (Http.response e) as [r|] eqn:Hr.
  - pose proof (handleError_cases e r Hr) as Hcases. cbv zeta in Hcases.
    assert (forall r', Some r = Some r' -> r' = r) as Hinj by (intros r' H; congruence).
    destruct Hcases as [[Hs ->] | [[Hs ->] | [[Hs ->] | [[Hs ->] | [[Hs ->] | [Hs ->]]]]]];
      cbn [Http.is_ServerError Http.is_APIError Http.statusCode_in]; (split; [|split]).
    all: try (intros c Hc; inversion Hc; reflexivity).
    all: try (intros c Hc; discriminate).
    all: try (split; [discriminate|]).
    all: try (split; [intros _ | intros _; reflexivity]).
    all: try (intros [H | (r' & Hr' & H)];
              [discriminate | rewrite (Hinj r' Hr') in H; cbn in H; lia]).
    all: try (intros (r' & Hr' & H); rewrite (Hinj r' Hr') in H; exfalso; apply H; cbn; lia).
    all: try (intros (r' & Hr' & H); rewrite (Hinj r' Hr') in H; cbn in Hs; cbn in H; tauto).
    all: try (right; exists r; split; [reflexivity | exact Hs]).
    all: try (exists r; split; [reflexivity | exact Hs]).
    all: try (intros [H | (r' & Hr' & H)];
              [discriminate | rewrite (Hinj r' Hr') in H; cbn in H; cbn in Hs; tauto]).
  - unfold Http.handleError. rewrite Hr. cbn. split; [|split].
    + split; [auto | reflexivity].
    + split; [discriminate | intros (r & Hr' & _); discriminate].
    + intros c Hc. inversion Hc. reflexivity.
Qed.

Example handleError_501 :
  Http.handleError {| Http.message := js "Request failed with status code 501";
                      Http.response := Some {| Http.status := 501; Http.data := None |} |}
  = Http.APIError (js "Request failed with status code 501") 501 None.
Proof. reflexivity. Qed.

(** ** The configuration of the client *)

Lemma throw_if_None (failed : bool) (message : string) (rest : option string) :
  Client.throw_if failed message rest = None <-> failed = false /\ rest = None.
Proof.
  destruct failed; cbn; split; intros H.
  - discriminate.
  - destruct H as [H _]. discriminate.
  - split; [reflexivity | exact H].
  - destruct H as [_ H]. exact H.
Qed.

(** What a configuration that passes [validateConfig] holds. *)
Lemma validateConfig_passes (config : Client.SingleKeyConfig) :
  Client.validateConfig config = None
  <-> (exists token, Client.apiToken config = Some token /\ trim token <> [])
      /\ (Client.truthy_string (Client.environment config) = None
          \/ Client.environment config = Some (js "sandbox")
          \/ Client.environment config = Some (js "production"))
      /\ (Client.truthy_number (Client.timeout config) = None
          \/ exists z, Client.timeout config = Some (Client.Num z) /\ 0 < z).
Proof.
  unfold Client.validateConfig. rewrite !throw_if_None. split.
  - intros (Htoken & Hblank & Henv & Htimeout & _). split; [|split].
    + destruct (Client.apiToken config) as [[|c r]|]; try discriminate.
      exists (c :: r). split; [reflexivity|].
      change (default [] (Some (c :: r))) with (c :: r) in Hblank.
      intros E. rewrite E in Hblank. discriminate.
    + destruct (Client.environment config) as [[|c r]|]; cbn in *; auto.
      apply negb_false_iff, orb_true_iff in Henv.
      destruct Henv as [H | H]; apply bool_decide_eq_true_1 in H; rewrite H; auto.
    + destruct (Client.timeout config) as [[z| | |]|]; cbn in *; auto; try discriminate.
      destruct (Z.eqb_spec z 0); [auto|]. cbn in Htimeout. right. exists z.
      split; [reflexivity | lia].
  - intros ((token & Htoken & Htrim) & Henv & Htimeout).
    rewrite Htoken. change (default [] (Some token)) with token.
    split; [|split; [|split; [|split; [|reflexivity]]]].
    + destruct token; [contradiction Htrim; reflexivity | reflexivity].
    + destruct (trim token); [contradiction | reflexivity].
    + destruct Henv as [-> | [-> | ->]]; reflexivity.
    + destruct Htimeout as [-> | (z & -> & Hz)]; [reflexivity|]. cbn.
      destruct (Z.eqb_spec z 0); [reflexivity|]. cbn. lia.
Qed.

(** X18: for every configuration that passes [validateConfig], the base URL
    [getBaseUrl()] reports is the one the HTTP client was created with. *)
Theorem getBaseUrl_is_axios_baseURL (config : Client.SingleKeyConfig) :
  Client.validateConfig config = None ->
  Client.axios_baseURL config = Some (Client.getBaseUrl config).
Proof.
  intros Hvalid. apply validateConfig_passes in Hvalid. destruct Hvalid as (_ & Henv & _).
  unfold Client.axios_baseURL, Client.getBaseUrl.
  destruct (Client.truthy_string (Client.baseUrl config)); [reflexivity|].
  destruct Henv as [Henv | [Henv | Henv]]; rewrite ?Henv.
  - destruct (Client.environment config) as [[|c r]|]; try discriminate; reflexivity.
  - reflexivity.
  - reflexivity.
Qed.

Lemma getBaseUrl_is_axios_baseURL_witness :
  Client.axios_baseURL
    {| Client.apiToken := Some (js "sk_test_1"); Client.environment := Some (js "sandbox");
       Client.baseUrl := None; Client.timeout := None |}
  = Some (Client.getBaseUrl
            {| Client.apiToken := Some (js "sk_test_1");
               Client.environment := Some (js "sandbox");
               Client.baseUrl := None; Client.timeout := None |}).
Proof.
  apply (getBaseUrl_is_axios_baseURL
           {| Client.apiToken := Some (js "sk_test_1");
              Client.environment := Some (js "sandbox");
              Client.baseUrl := None; Client.timeout := None |}).
  vm_compute. reflexivity.
Defined.

(** Without the validation the two can differ. *)
Example getBaseUrl_unvalidated :
  let config := {| Client.apiToken := Some (js "sk_test_1");
                   Client.environment := Some (js "staging");
                   Client.baseUrl := None; Client.timeout := None |} in
  Client.axios_baseURL config = None
  /\ Client.getBaseUrl config = Client.production_url.
Proof. split; reflexivity. Qed.

(** X19: for every configuration that passes [validateConfig], the API
    token holds a character that is not white space and the timeout given
    to axios is positive and finite: the configured one when that is
    positive, and 30000 when it is left out, [0] or [NaN], so that a timeout
    of 0 cannot be configured. *)
Theorem validated_token_and_timeout (config : Client.SingleKeyConfig) :
  Client.validateConfig config = None ->
  (exists token, Client.apiToken config = Some token
     /\ existsb (fun c => negb (is_StrWhiteSpaceChar c)) token = true)
  /\ (exists z, Client.axios_timeout config = Client.Num z /\ 0 < z
        /\ (z = 30000 \/ Client.timeout config = Some (Client.Num z)))
  /\ (Client.timeout config = None \/ Client.timeout config = Some (Client.Num 0)
      \/ Client.timeout config = Some Client.NaN ->
      Client.axios_timeout config = Client.Num 30000).
Proof.
  intros Hvalid. apply validateConfig_passes in Hvalid.
  destruct Hvalid as ((token & Htoken & Htrim) & _ & Htimeout). split; [|split].
  - exists token. split; [exact Htoken|].
    destruct (existsb (fun c => negb (is_StrWhiteSpaceChar c)) token) eqn:He; [reflexivity|].
    exfalso. apply Htrim. unfold trim.
    assert (skip_StrWhiteSpace token = []) as ->; [|reflexivity].
    clear Htoken Htrim. induction token as [|c r IH]; [reflexivity|].
    cbn in *. apply orb_false_iff in He. destruct He as [Hc Hr].
    apply negb_false_iff in Hc. rewrite Hc. apply IH, Hr.
  - unfold Client.axios_timeout.
    destruct Htimeout as [-> | (z & Hz & Hpos)].
    + exists 30000. split; [reflexivity|]. split; [lia | auto].
    + rewrite Hz. cbn. destruct (Z.eqb_spec z 0); [lia|]. exists z. auto.
  - unfold Client.axios_timeout. intros [-> | [-> | ->]]; reflexivity.
Qed.

Lemma validated_token_and_timeout_witness :
  let config := {| Client.apiToken := Some (js "sk_test_1"); Client.environment := None;
                   Client.baseUrl := None; Client.timeout := Some (Client.Num 0) |} in
  (exists token, Client.apiToken config = Some token
     /\ existsb (fun c => negb (is_StrWhiteSpaceChar c)) token = true)
  /\ (exists z, Client.axios_timeout config = Client.Num z /\ 0 < z
        /\ (z = 30000 \/ Client.timeout config = Some (Client.Num z)))
  /\ (Client.timeout config = None \/ Client.timeout config = Some (Client.Num 0)
      \/ Client.timeout config = Some Client.NaN ->
      Client.axios_timeout config = Client.Num 30000).
Proof.
  apply (validated_token_and_timeout
           {| Client.apiToken := Some (js "sk_test_1"); Client.environment := None;
              Client.baseUrl := None; Client.timeout := Some (Client.Num 0) |}).
  vm_compute. reflexivity.
Defined.

(** ** The validation utilities *)

Lemma digitsOnly_digits (s : jsstring) :
  forallb is_digit (Validation.digitsOnly s) = true.
Proof.
  unfold Validation.digitsOnly. induction s as [|c r IH]; [reflexivity|].
  cbn. destruct (is_digit c) eqn:Hc; [cbn; rewrite Hc; exact IH | exact IH].
Qed.

Lemma digitsOnly_of_digits (s : jsstring) :
  forallb is_digit s = true -> Validation.digitsOnly s = s.
Proof.
  unfold Validation.digitsOnly. induction s as [|c r IH]; [reflexivity|].
  cbn. intros H. apply andb_prop in H. destruct H as [Hc Hr]. rewrite Hc, (IH Hr). reflexivity.
Qed.

(** X20: [normalizePhone] returns digits only, changes nothing when applied
    again, and keeps the answer of [isValidPhone]; for a phone that
    [isValidPhone] accepts it returns ten digits, or eleven digits that do
    not start with 1: such a number is accepted and is not brought to ten
    digits. *)
Theorem normalizePhone_properties (phone : jsstring) :
  forallb is_digit (Validation.normalizePhone phone) = true
  /\ Validation.normalizePhone (Validation.normalizePhone phone)
     = Validation.normalizePhone phone
  /\ Validation.isValidPhone (Validation.normalizePhone phone)
     = Validation.isValidPhone phone
  /\ (Validation.isValidPhone phone = true ->
      length (Validation.normalizePhone phone) = 10%nat
      \/ (length (Validation.normalizePhone phone) = 11%nat
          /\ exists c r, Validation.normalizePhone phone = c :: r /\ c <> 49)).
Proof.
  pose proof (digitsOnly_digits phone) as Hd.
  unfold Validation.normalizePhone, Validation.isValidPhone.
  destruct (Validation.digitsOnly phone) as [|c r] eqn:Hdigits.
  - cbn. repeat split; try reflexivity. discriminate.
  - cbn [forallb] in Hd. apply andb_prop in Hd. destruct Hd as [Hc Hr].
    cbn [length]. destruct (Nat.eqb_spec (S (length r)) 11) as [H11 | H11];
      [destruct (Z.eqb_spec c 49) as [H1 | H1]|]; cbn [andb].
    + rewrite (digitsOnly_of_digits r Hr).
      assert (length r = 10%nat) as Hlen by lia.
      split; [exact Hr|]. split; [|split].
      * destruct r as [|c' r']; [reflexivity|].
        cbn [length] in *. destruct (Nat.eqb_spec (S (length r')) 11); [lia | reflexivity].
      * rewrite Hlen. reflexivity.
      * intros _. left. exact Hlen.
    + rewrite (digitsOnly_of_digits (c :: r)) by (cbn; rewrite Hc; exact Hr).
      cbn [length]. rewrite H11. cbn. destruct (Z.eqb_spec c 49); [contradiction|].
      cbn. split; [rewrite Hc; exact Hr|]. split; [reflexivity|]. split; [reflexivity|].
      intros _. right. split; [reflexivity | eauto].
    + rewrite (digitsOnly_of_digits (c :: r)) by (cbn; rewrite Hc; exact Hr).
      cbn [length]. destruct (Nat.eqb_spec (S (length r)) 11); [contradiction|].
      cbn [andb]. split; [cbn; rewrite Hc; exact Hr|]. split; [reflexivity|].
      split; [reflexivity|].
      intros Hv. apply orb_prop in Hv. destruct Hv as [Hv | Hv].
      * left. apply Nat.eqb_eq in Hv. exact Hv.
      * discriminate.
Qed.

Example phone_samples :
  Validation.normalizePhone (js "+1 (555) 123-4567") = js "5551234567"
  /\ Validation.isValidPhone (js "25551234567") = true
  /\ Validation.normalizePhone (js "25551234567") = js "25551234567"
  /\ Validation.isValidPhone (js "555-1234") = false.
Proof. repeat split; reflexivity. Qed.

Lemma split_comma_length (s : jsstring) :
  length (Validation.split_comma s) = S (Validation.count_commas s).
Proof.
  unfold Validation.count_commas. induction s as [|c r IH]; [reflexivity|].
  cbn [Validation.split_comma List.filter].
  destruct (c =? 44).
  - cbn. rewrite IH. reflexivity.
  - destruct (Validation.split_comma r) as [|part parts]; [discriminate|]. exact IH.
Qed.

Lemma count_commas_app (a b : jsstring) :
  Validation.count_commas (a ++ b)
  = (Validation.count_commas a + Validation.count_commas b)%nat.
Proof. unfold Validation.count_commas. rewrite List.filter_app, length_app. reflexivity. Qed.

Lemma count_commas_In (s : jsstring) : (1 <= Validation.count_commas s)%nat -> In 44 s.
Proof.
  unfold Validation.count_commas. induction s as [|c r IH]; [cbn; lia|].
  cbn [List.filter]. destruct (Z.eqb_spec c 44) as [-> | Hc];
    [left; reflexivity | intros H; right; apply IH, H].
Qed.

Lemma skip_StrWhiteSpace_keeps (c : Z) (s : jsstring) :
  is_StrWhiteSpaceChar c = false -> In c s -> In c (skip_StrWhiteSpace s).
Proof.
  intros Hc. induction s as [|d r IH]; [auto|].
  cbn [skip_StrWhiteSpace]. destruct (is_StrWhiteSpaceChar d) eqn:Hd; [|auto].
  intros [-> | H]; [congruence | apply IH, H].
Qed.

(** A string that holds a character that is not white space does not trim
    to nothing. *)
Lemma trim_not_empty (c : Z) (s : jsstring) :
  is_StrWhiteSpaceChar c = false -> In c s -> trim s <> [].
Proof.
  intros Hc Hin. unfold trim.
  assert (In c (rev (skip_StrWhiteSpace (rev (skip_StrWhiteSpace s))))) as H.
  { apply in_rev. rewrite rev_involutive.
    apply skip_StrWhiteSpace_keeps; [exact Hc|].
    apply -> in_rev. apply skip_StrWhiteSpace_keeps; assumption. }
  intros E. rewrite E in H. exact H.
Qed.

Lemma isValidAddress_commas (address : jsstring) :
  Validation.valid (Validation.isValidAddress address) = true
  <-> (2 <= Validation.count_commas address)%nat.
Proof.
  unfold Validation.isValidAddress. split.
  - destruct (_ || _); [discriminate|].
    rewrite length_fmap, split_comma_length.
    destruct (Nat.ltb_spec (S (Validation.count_commas address)) 3); [discriminate | lia].
  - intros H. pose proof (count_commas_In address ltac:(lia)) as Hin.
    pose proof (trim_not_empty 44 address eq_refl Hin) as Htrim.
    destruct address as [|c r]; [destruct Hin|].
    destruct (trim (c :: r)) as [|t ts]; [contradiction|]. cbn [orb length Nat.eqb].
    rewrite length_fmap, split_comma_length.
    destruct (Nat.ltb_spec (S (Validation.count_commas (c :: r))) 3); [lia | reflexivity].
Qed.

(** X21: [isValidAddress] accepts an address exactly when it holds at least
    two commas, whatever stands between them; so every address that
    [formatAddress] builds is accepted, also from empty parts. *)
Theorem isValidAddress_two_commas (address street city provinceState country postalZip
  : jsstring) :
  (Validation.valid (Validation.isValidAddress address) = true
   <-> (2 <= Validation.count_commas address)%nat)
  /\ Validation.isValidAddress
       (Validation.formatAddress street city provinceState country postalZip)
     = {| Validation.valid := true; Validation.error := None |}.
Proof.
  split; [apply isValidAddress_commas|].
  assert (Validation.valid (Validation.isValidAddress
            (Validation.formatAddress street city provinceState country postalZip)) = true)
    as Hv.
  { apply isValidAddress_commas. unfold Validation.formatAddress.
    rewrite !count_commas_app. change (Validation.count_commas (js ", ")) with 1%nat. lia. }
  revert Hv. unfold Validation.isValidAddress.
  destruct (_ || _); [discriminate|]. destruct (_ <? _)%nat; [discriminate | reflexivity].
Qed.

Example address_samples :
  Validation.isValidAddress (js "123 Main St, Toronto, ON, Canada, M5V 1A1")
    = {| Validation.valid := true; Validation.error := None |}
  /\ Validation.valid (Validation.isValidAddress (js ",,")) = true
  /\ Validation.error (Validation.isValidAddress (js "   "))
     = Some "Address is required"%string
  /\ Validation.valid (Validation.isValidAddress (js "123 Main St, Toronto")) = false.
Proof. repeat split; reflexivity. Qed.

(** The tests of the validators on integers, and the shape of an argument
    in a statement. *)
Ltac integer_tests :=
  repeat match goal with
         | |- context [?a <? ?b] => destruct (Z.ltb_spec a b)
         | |- context [?a =? ?b] => destruct (Z.eqb_spec a b)
         end.

Ltac number_cases :=
  unfold Validation.NaN_or, Validation.not_after;
  cbn [Validation.getFullYear Validation.getMonth Validation.getDate];
  split; intros; try reflexivity; try discriminate;
  repeat match goal with
         | H : _ /\ _ |- _ => destruct H
         | H : _ \/ _ |- _ => destruct H
         | H : exists _, _ |- _ => destruct H
         | H : Client.Num _ = Client.Num _ |- _ => injection H as H; subst
         | H : _ = _ :> Client.number |- _ => discriminate H
         end;
  try lia.

Lemma isValidCardExpiration_iff (now : Validation.Today) (month year : Client.number) :
  Validation.isValidCardExpiration now month year = true
  <-> Validation.NaN_or (fun m => 1 <= m <= 12) month
      /\ (year = Client.NaN \/ year = Client.Infinity
          \/ exists y, year = Client.Num y
               /\ (Validation.getFullYear now < y
                   \/ (y = Validation.getFullYear now
                       /\ Validation.NaN_or
                            (fun m => Validation.getMonth now + 1 <= m) month))).
Proof.
  unfold Validation.isValidCardExpiration, Validation.gt.
  destruct month as [m| | |], year as [y| | |];
    cbn [Validation.lt Validation.strict_eq orb andb];
    integer_tests; cbn [orb andb]; number_cases.
  all: try (split; [right; eexists; split; [reflexivity | lia] | ]).
  all: try (split; [left; reflexivity | ]).
  all: try (left; reflexivity).
  all: try (right; left; reflexivity).
  all: try (right; right; eexists; split; [reflexivity|]).
  all: try (left; lia).
  all: try (right; split; [lia|]).
  all: try (right; eexists; split; [reflexivity | lia]).
  all: try (left; reflexivity).
Qed.

(** X22: [isValidCardExpiration] accepts exactly a month that is [NaN] or
    from 1 to 12, with a year that is [NaN], infinite or later than the
    current one, or that is the current year when the month is [NaN] or
    not before the current month: [NaN] passes every test, as each is a
    comparison.  A card it accepts today was accepted on every earlier
    day. *)
Theorem isValidCardExpiration_spec (now earlier : Validation.Today)
  (month year : Client.number) :
  (Validation.isValidCardExpiration now month year = true
   <-> Validation.NaN_or (fun m => 1 <= m <= 12) month
       /\ (year = Client.NaN \/ year = Client.Infinity
           \/ exists y, year = Client.Num y
                /\ (Validation.getFullYear now < y
                    \/ (y = Validation.getFullYear now
                        /\ Validation.NaN_or
                             (fun m => Validation.getMonth now + 1 <= m) month))))
  /\ (Validation.not_after earlier now ->
      Validation.isValidCardExpiration now month year = true ->
      Validation.isValidCardExpiration earlier month year = true).
Proof.
  split; [apply isValidCardExpiration_iff|].
  intros Hearlier Hnow. apply isValidCardExpiration_iff.
  apply isValidCardExpiration_iff in Hnow. destruct Hnow as [Hm Hy].
  split; [exact Hm|].
  destruct Hy as [Hy | [Hy | (y & Hy & Hlater)]]; [left; exact Hy | right; left; exact Hy |].
  right; right. exists y. split; [exact Hy|].
  unfold Validation.not_after in Hearlier.
  destruct Hlater as [Hlt | [Heq Hmonth]]; [left; lia|].
  destruct (Z.eq_dec (Validation.getFullYear earlier) (Validation.getFullYear now))
    as [Hsame | Hdiff]; [|left; lia].
  right. split; [lia|].
  destruct Hmonth as [Hnan | (m & Hnum & Hle)]; [left; exact Hnan|].
  right. exists m. split; [exact Hnum | lia].
Qed.

Example card_expiration_samples :
  let in_march_2026 := {| Validation.getFullYear := 2026; Validation.getMonth := 2;
                          Validation.getDate := 15 |} in
  Validation.isValidCardExpiration in_march_2026 (Client.Num 3) (Client.Num 2026) = true
  /\ Validation.isValidCardExpiration in_march_2026 (Client.Num 2) (Client.Num 2026) = false
  /\ Validation.isValidCardExpiration in_march_2026 (Client.Num 13) (Client.Num 2030) = false
  /\ Validation.isValidCardExpiration in_march_2026 Client.NaN (Client.Num 2030) = true
  /\ Validation.isValidCardExpiration in_march_2026 Client.NaN Client.NaN = true
  /\ Validation.isValidCardExpiration in_march_2026 (Client.Num 1) Client.Infinity = true.
Proof. repeat split; reflexivity. Qed.

(** The validator on three integers. *)
Lemma isValidDateOfBirth_integers (now : Validation.Today) (y m d : Z) :
  Validation.valid
    (Validation.isValidDateOfBirth now (Client.Num y) (Client.Num m) (Client.Num d)) = true
  <-> 1900 <= y
      /\ 1 <= m <= 12
      /\ 1 <= d <= Validation.month_length y m
      /\ Validation.not_after
           {| Validation.getFullYear := y + 18; Validation.getMonth := m - 1;
              Validation.getDate := d |} now.
Proof.
  unfold Validation.isValidDateOfBirth, Validation.gt, Validation.daysInMonth,
    Validation.new_Date, Validation.not_after.
  cbn [Validation.lt Validation.strict_eq Validation.minus Validation.get
       Validation.getFullYear Validation.getMonth Validation.getDate].
  destruct (Z.ltb_spec y 1900); cbn [orb]; [split; [discriminate | lia]|].
  destruct (Z.ltb_spec (Validation.getFullYear now) y); [split; [discriminate | lia]|].
  destruct (Z.ltb_spec m 1); cbn [orb]; [split; [discriminate | lia]|].
  destruct (Z.ltb_spec 12 m); [split; [discriminate | lia]|].
  destruct (Z.ltb_spec d 1); cbn [orb]; [split; [discriminate | lia]|].
  destruct (Z.ltb_spec (Validation.month_length y m) d);
    [split; [discriminate | lia]|].
  destruct (Z.ltb_spec (Validation.getMonth now - (m - 1)) 0); cbn [orb].
  - cbn [Validation.lt Validation.minus].
    destruct (Z.ltb_spec (Validation.getFullYear now - y - 1) 18);
      cbn [Validation.valid]; split; try discriminate; try reflexivity; lia.
  - destruct (Z.eqb_spec (Validation.getMonth now - (m - 1)) 0); cbn [andb].
    + destruct (Z.ltb_spec (Validation.getDate now) d); cbn [Validation.lt Validation.minus].
      * destruct (Z.ltb_spec (Validation.getFullYear now - y - 1) 18);
          cbn [Validation.valid]; split; try discriminate; try reflexivity; lia.
      * destruct (Z.ltb_spec (Validation.getFullYear now - y) 18);
          cbn [Validation.valid]; split; try discriminate; try reflexivity; lia.
    + cbn [Validation.lt].
      destruct (Z.ltb_spec (Validation.getFullYear now - y) 18);
        cbn [Validation.valid]; split; try discriminate; try reflexivity; lia.
Qed.

(** The validator when one of the three is [NaN]: the date it builds is
    invalid, the tests on it are false, and the arguments are only held to
    the tests that compare them with a constant or with the current
    year. *)
Lemma isValidDateOfBirth_NaN (now : Validation.Today) (year month day : Client.number) :
  year = Client.NaN \/ month = Client.NaN \/ day = Client.NaN ->
  Validation.valid (Validation.isValidDateOfBirth now year month day) = true
  <-> Validation.NaN_or (fun y => 1900 <= y <= Validation.getFullYear now) year
      /\ Validation.NaN_or (fun m => 1 <= m <= 12) month
      /\ (Validation.NaN_or (fun d => 1 <= d) day \/ day = Client.Infinity).
Proof.
  intros Hnan. unfold Validation.isValidDateOfBirth, Validation.gt.
  destruct year as [y| | |], month as [m| | |], day as [d| | |];
    try (exfalso; destruct Hnan as [H | [H | H]]; discriminate H);
    cbn [Validation.lt Validation.strict_eq Validation.minus Validation.get
         Validation.daysInMonth Validation.new_Date orb andb];
    integer_tests; cbn [orb andb Validation.valid Validation.lt]; number_cases.
  all: repeat match goal with
              | |- _ /\ _ => split
              | |- Client.NaN = Client.NaN \/ _ => left; reflexivity
              | |- Client.Num ?z = Client.NaN \/ _ =>
                right; exists z; split; [reflexivity | lia]
              | |- (Client.NaN = Client.NaN \/ _) \/ _ => left; left; reflexivity
              | |- (Client.Num ?z = Client.NaN \/ _) \/ _ =>
                left; right; exists z; split; [reflexivity | lia]
              | |- _ \/ Client.Infinity = Client.Infinity => right; reflexivity
              end.
Qed.

(** X23: [isValidDateOfBirth] on three integers accepts exactly a year from
    1900 on, a month from 1 to 12 and a day that exists in that month of
    that year, such that the day 18 years later is not after today; an
    infinite argument is refused when none is [NaN].  When one of the three
    is [NaN] the date built from them is invalid and every test on it is
    false: the date of birth is accepted as soon as the year is [NaN] or
    from 1900 to the current year, the month is [NaN] or from 1 to 12 and
    the day is [NaN], infinite or an integer from 1 on, with no upper bound
    on the day and no test of the age.  A date of birth accepted today is
    accepted on every later day. *)
Theorem isValidDateOfBirth_spec (now later : Validation.Today)
  (year month day : Client.number) :
  let accepted today :=
    Validation.valid (Validation.isValidDateOfBirth today year month day) = true in
  (year <> Client.NaN /\ month <> Client.NaN /\ day <> Client.NaN ->
   (accepted now
    <-> exists y m d,
          year = Client.Num y /\ month = Client.Num m /\ day = Client.Num d
          /\ 1900 <= y
          /\ 1 <= m <= 12
          /\ 1 <= d <= Validation.month_length y m
          /\ Validation.not_after
               {| Validation.getFullYear := y + 18; Validation.getMonth := m - 1;
                  Validation.getDate := d |} now))
  /\ (year = Client.NaN \/ month = Client.NaN \/ day = Client.NaN ->
      (accepted now
       <-> Validation.NaN_or (fun y => 1900 <= y <= Validation.getFullYear now) year
           /\ Validation.NaN_or (fun m => 1 <= m <= 12) month
           /\ (Validation.NaN_or (fun d => 1 <= d) day \/ day = Client.Infinity)))
  /\ (Validation.not_after now later -> accepted now -> accepted later).
Proof.
  intros accepted. unfold accepted. split; [|split].
  - intros (Hy & Hm & Hd). split.
    + intros Hvalid.
      destruct year as [y| | |], month as [m| | |], day as [d| | |];
        try congruence; try (exfalso; revert Hvalid; clear;
          unfold Validation.isValidDateOfBirth, Validation.gt;
          cbn [Validation.lt Validation.strict_eq Validation.minus Validation.get
               Validation.daysInMonth Validation.new_Date orb andb];
          integer_tests; cbn [orb andb Validation.valid]; discriminate).
      exists y, m, d. split; [reflexivity|]. split; [reflexivity|]. split; [reflexivity|].
      apply isValidDateOfBirth_integers, Hvalid.
    + intros (y & m & d & -> & -> & -> & Hspec). apply isValidDateOfBirth_integers, Hspec.
  - apply isValidDateOfBirth_NaN.
  - intros Hlater Hnow.
    destruct year as [y| | |] eqn:Ey, month as [m| | |] eqn:Em, day as [d| | |] eqn:Ed.
    1: { apply isValidDateOfBirth_integers. apply isValidDateOfBirth_integers in Hnow.
         destruct Hnow as (H1 & H2 & H3 & H18).
         split; [exact H1|]. split; [exact H2|]. split; [exact H3|].
         unfold Validation.not_after in *.
         cbn [Validation.getFullYear Validation.getMonth Validation.getDate] in *. lia. }
    all: try (exfalso; revert Hnow; clear;
          unfold Validation.isValidDateOfBirth, Validation.gt;
          cbn [Validation.lt Validation.strict_eq Validation.minus Validation.get
               Validation.daysInMonth Validation.new_Date orb andb];
          integer_tests; cbn [orb andb Validation.valid]; discriminate).
    all: match goal with
         | H : Validation.valid (Validation.isValidDateOfBirth ?t ?a ?b ?c) = true |- _ =>
           assert (a = Client.NaN \/ b = Client.NaN \/ c = Client.NaN) as Hnan
             by (first [left; reflexivity | right; left; reflexivity
                       | right; right; reflexivity]);
           apply (isValidDateOfBirth_NaN later _ _ _ Hnan);
           apply (isValidDateOfBirth_NaN t _ _ _ Hnan) in H;
           destruct H as (Hyear & Hmonth & Hday);
           split; [|split; [exact Hmonth | exact Hday]];
           destruct Hyear as [Hyear | (z & Hz & Hrange)];
           [left; exact Hyear | right; exists z; split; [exact Hz|]];
           unfold Validation.not_after in Hlater; lia
         end.
Qed.

Example date_of_birth_samples :
  let on y m d := {| Validation.getFullYear := y; Validation.getMonth := m - 1;
                     Validation.getDate := d |} in
  let born y m d :=
    Validation.isValidDateOfBirth (on 2026 3 1) (Client.Num y) (Client.Num m) (Client.Num d) in
  Validation.valid
    (Validation.isValidDateOfBirth (on 2026 2 28)
       (Client.Num 2008) (Client.Num 2) (Client.Num 29)) = false
  /\ Validation.valid (born 2008 2 29) = true
  /\ Validation.error (born 2007 2 29)
     = Some "Day must be between 1 and 28 for this month"%string
  /\ Validation.error (born 1899 12 31) = Some "Invalid year"%string.
Proof. repeat split; vm_compute; reflexivity. Qed.

Example date_of_birth_NaN :
  let today := {| Validation.getFullYear := 2026; Validation.getMonth := 2;
                  Validation.getDate := 1 |} in
  Validation.isValidDateOfBirth today Client.NaN (Client.Num 6) (Client.Num 15)
    = {| Validation.valid := true; Validation.error := None |}
  /\ Validation.valid
       (Validation.isValidDateOfBirth today (Client.Num 2026) (Client.Num 2) Client.NaN)
     = true
  /\ Validation.valid
       (Validation.isValidDateOfBirth today Client.NaN (Client.Num 6) (Client.Num 99))
     = true
  /\ Validation.error
       (Validation.isValidDateOfBirth today Client.NaN (Client.Num 6) (Client.Num 0))
     = Some "Day must be between 1 and NaN for this month"%string
  /\ Validation.valid
       (Validation.isValidDateOfBirth today (Client.Num 2000) (Client.Num 6) Client.Infinity)
     = false.
Proof. repeat split; vm_compute; reflexivity. Qed.

(** ** What a call of [verifySignature] computes *)

(** X24: [verifySignature] computes the digest exactly when a non-empty
    secret is configured, the timestamp header starts with an integer and
    that integer is within the tolerance of the clock: never for a stale or
    unreadable timestamp.  Without a secret it does not even read the
    clock, and it never parses the payload. *)
Theorem verifySignature_computes this Date_now payload signature timestamp :
  let v := verifySignature this Date_now payload signature timestamp in
  (computes_digest (trace v) = true
   <-> exists key t,
         truthy_secret this = Some key
         /\ parseInt timestamp = Some t
         /\ Z.abs (currentTime_of Date_now - t) <= tolerance this)
  /\ (truthy_secret this = None <-> trace v = [])
  /\ parses_json (trace v) = false.
Proof.
  intros v. unfold v. split; [apply digest_only_when_fresh|].
  split; [|apply verifySignature_never_parses].
  destruct (truthy_secret this) as [key|] eqn:Hkey.
  - split; [discriminate|].
    destruct (parseInt timestamp) as [t|] eqn:Hp;
      [|rewrite (verifySignature_NaN _ _ _ _ _ _ Hkey Hp); discriminate].
    destruct (Z_le_gt_dec (Z.abs (currentTime_of Date_now - t)) (tolerance this)) as [Hle | Hgt].
    + rewrite (verifySignature_fresh _ _ _ _ _ _ _ Hkey Hp Hle). discriminate.
    + rewrite (verifySignature_stale _ _ _ _ _ _ _ Hkey Hp Hgt). discriminate.
  - rewrite (verifySignature_unconfigured _ _ _ _ _ Hkey). split; reflexivity.
Qed.
